(** * fastapi-limiter: the store-side counter scripts and their callers

    A shallow embedding of [fastapi_limiter/__init__.py] and
    [fastapi_limiter/depends.py].

    The counters live in a Redis database.  The two Lua scripts of the
    package ([FastAPILimiter.lua_script] and [_refund_script]) are embedded
    as pure functions on that database; Redis runs a script as one
    indivisible command, which is why one script execution is one function
    application here.  The Python callers ([RateLimiter.__call__],
    [WebSocketRateLimiter.__call__], [refund_rate_limit_for_request]) are
    embedded in a small state-and-exception monad over the process and the
    store it talks to.  [mark_request_ignored] is [refund_rate_limit_for_request]
    followed by calls into limiters of a class the package does not
    define; it is not embedded. *)

From Stdlib Require Import ZArith String Ascii List Bool Lia.
From stdpp Require Import gmap strings list fin_maps pretty.

Local Open Scope Z_scope.
Local Open Scope string_scope.

(** ** The store *)

(** A key of the database holds an integer and, optionally, the absolute
    time (in milliseconds) at which it expires.  Counts stay far below
    2^53, so Lua's numbers and Redis's 64-bit integers are both plain
    integers here. *)
Record entry := Entry { value : Z; expire_at : option Z }.

(** What a script execution answers: an integer, or the error of a
    command the store rejected, which ends the script. *)
Inductive reply :=
| IntegerReply (n : Z)
| ErrorReply.

Module Redis.

(** A key whose deadline has passed is gone for every command; at the
    deadline itself it is still there, with a time-to-live of 0. *)
Definition live (now : Z) (e : entry) : bool :=
  match expire_at e with
  | None => true
  | Some deadline => bool_decide (now <= deadline)
  end.

Definition find (now : Z) (db : gmap string entry) (key : string) : option entry :=
  match db !! key with
  | Some e => if live now e then Some e else None
  | None => None
  end.

(** [GET key]: the value, or nil (here [None]) when the key is absent. *)
Definition GET (now : Z) (db : gmap string entry) (key : string) : option Z :=
  value <$> find now db key.

(** [SET key v PX ms]: overwrite the value and restart the expiry.  The
    store rejects an expiry that is not positive ("invalid expire
    time"): [None] is that rejection, and nothing is written.  Arguments
    are taken inside the 64-bit range of the store protocol. *)
Definition SET_PX (now : Z) (db : gmap string entry) (key : string) (v ms : Z)
  : option (gmap string entry) :=
  if bool_decide (0 < ms) then Some (<[key := Entry v (Some (now + ms))]> db)
  else None.

(** [INCR key] and [DECR key] keep the expiry of an existing key; on an
    absent key they start from 0 and create a key without expiry. *)
Definition INCR (now : Z) (db : gmap string entry) (key : string) : gmap string entry :=
  match find now db key with
  | Some e => <[key := Entry (value e + 1) (expire_at e)]> db
  | None => <[key := Entry 1 None]> db
  end.

Definition DECR (now : Z) (db : gmap string entry) (key : string) : gmap string entry :=
  match find now db key with
  | Some e => <[key := Entry (value e - 1) (expire_at e)]> db
  | None => <[key := Entry (-1) None]> db
  end.

(** [PTTL key]: remaining milliseconds, -1 for a key without expiry, -2
    for an absent key. *)
Definition PTTL (now : Z) (db : gmap string entry) (key : string) : Z :=
  match find now db key with
  | Some e => match expire_at e with
              | Some deadline => deadline - now
              | None => -1
              end
  | None => -2
  end.

End Redis.

(** ** The two scripts *)

(** [FastAPILimiter.lua_script], with [KEYS[1]], [tonumber(ARGV[1])] and
    [ARGV[2]] as arguments.  The result is what the script answers and
    the database it leaves.  [redis.call] raises when the store rejects a
    command: the script ends there with an error reply. *)
Definition lua_script (now : Z) (db : gmap string entry)
    (KEYS1 : string) (ARGV1 ARGV2 : Z) : reply * gmap string entry :=
  let key := KEYS1 in
  let limit := ARGV1 in
  let expire_time := ARGV2 in
  let current := default 0 (Redis.GET now db key) in
  if bool_decide (current > 0) then
    if bool_decide (current + 1 > limit) then
      (IntegerReply (Redis.PTTL now db key), db)
    else
      (IntegerReply 0, Redis.INCR now db key)
  else
    match Redis.SET_PX now db key 1 expire_time with
    | Some db' => (IntegerReply 0, db')
    | None => (ErrorReply, db)
    end.

(** [_refund_script]. *)
Definition _refund_script (now : Z) (db : gmap string entry) (KEYS1 : string)
    : Z * gmap string entry :=
  let key := KEYS1 in
  let current := default 0 (Redis.GET now db key) in
  (current, if bool_decide (current > 0) then Redis.DECR now db key else db).

(** The count a caller observes at [key]: absent reads as 0. *)
Definition count_of (now : Z) (db : gmap string entry) (key : string) : Z :=
  default 0 (Redis.GET now db key).

(** Sequential executions of the counter script on one key, one per listed
    time. *)
Fixpoint run_checks (db : gmap string entry) (key : string) (limit window : Z)
    (times : list Z) : list reply * gmap string entry :=
  match times with
  | [] => ([], db)
  | t :: ts =>
      let '(r, db1) := lua_script t db key limit window in
      let '(rs, db2) := run_checks db1 key limit window ts in
      (r :: rs, db2)
  end.

(** Store operations, for statements about arbitrary interleavings. *)
Inductive store_op :=
| CheckAndCharge (limit window : Z)
| Refund.

Definition run_op (now : Z) (db : gmap string entry) (key : string) (o : store_op)
    : reply * gmap string entry :=
  match o with
  | CheckAndCharge limit window => lua_script now db key limit window
  | Refund => (IntegerReply (fst (_refund_script now db key)),
               snd (_refund_script now db key))
  end.

(** A schedule is a list of (time, key, operation). *)
Fixpoint run_ops (db : gmap string entry) (sched : list (Z * string * store_op))
    : gmap string entry :=
  match sched with
  | [] => db
  | (now, key, o) :: rest => run_ops (snd (run_op now db key o)) rest
  end.

Definition counts_nonneg (db : gmap string entry) : Prop :=
  ∀ k e, db !! k = Some e → 0 <= value e.

(** The return values of a schedule, in order. *)
Fixpoint run_ops_results (db : gmap string entry) (sched : list (Z * string * store_op))
    : list reply :=
  match sched with
  | [] => []
  | (now, key, o) :: rest =>
      let '(r, db') := run_op now db key o in
      r :: run_ops_results db' rest
  end.

(** Time only moves forward along a schedule. *)
Fixpoint forward (now : Z) (sched : list (Z * string * store_op)) : Prop :=
  match sched with
  | [] => True
  | (t, _, _) :: rest => now <= t ∧ forward t rest
  end.

(** A slot that reads as count 0: no record, an expired record, or a
    record holding 0. *)
Definition reads_zero (now : Z) (slot : option entry) : Prop :=
  match slot with
  | None => True
  | Some e => value e = 0 ∨ Redis.live now e = false
  end.

(** Two databases that differ only in how their empty counters are
    represented. *)
Definition same_counts (now : Z) (db1 db2 : gmap string entry) : Prop :=
  ∀ k, db1 !! k = db2 !! k ∨ (reads_zero now (db1 !! k) ∧ reads_zero now (db2 !! k)).

(** ** The process and its store client *)

(** The store addresses a loaded script by the hash of its text; the two
    scripts of the package have two distinct hashes, so a hash is modelled
    by the script it names. *)
Inductive script := LimiterScript | RefundScript.

Global Instance script_eq_dec : EqDecision script.
Proof. solve_decision. Defined.

(** What can happen to one round trip to the store: it is served, the
    store cannot be reached (or the command fails), or the store has lost
    its script cache since the previous command. *)
Inductive fault := Reachable | Unreachable | ScriptFlush.

Inductive event :=
| ScriptLoad (sc : script)
| EvalSha (sha : option script) (key : string) (argv : list Z).

Inductive exn :=
| NoScriptError
| RedisError
| ResponseError
| HTTPException (status_code : Z) (detail : string) (headers : list (string * string))
| Exception (message : string)
| AttributeError
| TypeError.

(** The process and the store.  [clock] is the time the store reads when
    a command arrives; it moves with [elapse] only, so calls composed
    with no [elapse] in between reach the store within one millisecond. *)
Record World := {
  db : gmap string entry;
  script_cache : list script;
  clock : Z;
  faults : list fault;
  log : list event;
  lua_sha : option script;
  _refund_script_sha : option script
}.

Inductive result (A : Type) :=
| Return (a : A)
| Raise (e : exn).
Arguments Return {A} a.
Arguments Raise {A} e.

Definition M (A : Type) : Type := World → result A * World.

Definition ret {A} (a : A) : M A := λ w, (Return a, w).

Definition raise {A} (e : exn) : M A := λ w, (Raise e, w).

Definition bind {A B} (m : M A) (k : A → M B) : M B :=
  λ w, match m w with
       | (Return a, w') => k a w'
       | (Raise e, w') => (Raise e, w')
       end.

Notation "x <~ m ;; k" := (bind m (λ x, k))
  (at level 100, m at next level, right associativity).
Notation "m ;;; k" := (bind m (λ _, k))
  (at level 100, right associativity).

(** [try: m  except e if catches e: handler]. *)
Definition try_except {A} (m : M A) (catches : exn → bool) (handler : M A) : M A :=
  λ w, match m w with
       | (Raise e, w') => if catches e then handler w' else (Raise e, w')
       | r => r
       end.

Definition is_NoScriptError (e : exn) : bool :=
  match e with NoScriptError => true | _ => false end.

Definition anything (e : exn) : bool := true.

Definition is_HTTPException (e : exn) : bool :=
  match e with HTTPException _ _ _ => true | _ => false end.

Definition record (ev : event) : M unit :=
  λ w, (Return tt,
        {| db := db w; script_cache := script_cache w; clock := clock w;
           faults := faults w; log := log w ++ [ev];
           lua_sha := lua_sha w; _refund_script_sha := _refund_script_sha w |}).

Definition with_faults (fs : list fault) (cache : list script) (w : World) : World :=
  {| db := db w; script_cache := cache; clock := clock w;
     faults := fs; log := log w;
     lua_sha := lua_sha w; _refund_script_sha := _refund_script_sha w |}.

(** One round trip consumes the head of the fault schedule; an exhausted
    schedule means a reachable store. *)
Definition round_trip : M unit :=
  λ w, match faults w with
       | [] => (Return tt, w)
       | Reachable :: fs => (Return tt, with_faults fs (script_cache w) w)
       | Unreachable :: fs => (Raise RedisError, with_faults fs (script_cache w) w)
       | ScriptFlush :: fs => (Return tt, with_faults fs [] w)
       end.

Definition cache_script (sc : script) : M unit :=
  λ w, (Return tt, with_faults (faults w) (sc :: script_cache w) w).

(** [redis.script_load(text)]: returns the hash of the text. *)
Definition script_load (sc : script) : M script :=
  record (ScriptLoad sc) ;;; round_trip ;;; cache_script sc ;;; ret sc.

(** An error reply reaches the caller as [redis.exceptions.ResponseError]. *)
Definition as_result (r : reply) : result Z :=
  match r with
  | IntegerReply n => Return n
  | ErrorReply => Raise ResponseError
  end.

Definition run_script (sc : script) (key : string) (argv : list Z) : M Z :=
  λ w, match sc, argv with
       | LimiterScript, [limit; expire_time] =>
           let '(r, db') := lua_script (clock w) (db w) key limit expire_time in
           (as_result r,
            {| db := db'; script_cache := script_cache w; clock := clock w;
               faults := faults w; log := log w;
               lua_sha := lua_sha w; _refund_script_sha := _refund_script_sha w |})
       | LimiterScript, _ => (Raise RedisError, w)
       | RefundScript, _ =>
           let '(r, db') := _refund_script (clock w) (db w) key in
           (Return r,
            {| db := db'; script_cache := script_cache w; clock := clock w;
               faults := faults w; log := log w;
               lua_sha := lua_sha w; _refund_script_sha := _refund_script_sha w |})
       end.

(** Time passing between two commands of the process. *)
Definition elapse (ms : nat) : M unit :=
  λ w, (Return tt,
        {| db := db w; script_cache := script_cache w;
           clock := clock w + Z.of_nat ms;
           faults := faults w; log := log w;
           lua_sha := lua_sha w; _refund_script_sha := _refund_script_sha w |}).

Definition cached (sc : script) : M bool :=
  λ w, (Return (bool_decide (sc ∈ script_cache w)), w).

(** [redis.evalsha(sha, 1, key, *argv)].  The script runs at the time
    the clock shows; the time that passes between two commands is
    [elapse]'s. *)
Definition evalsha (sha : option script) (key : string) (argv : list Z) : M Z :=
  record (EvalSha sha key argv) ;;;
  round_trip ;;;
  match sha with
  | None => raise NoScriptError
  | Some sc =>
      present <~ cached sc ;;
      if present then run_script sc key argv else raise NoScriptError
  end.

Definition get_lua_sha : M (option script) := λ w, (Return (lua_sha w), w).

Definition set_lua_sha (sha : script) : M unit :=
  λ w, (Return tt,
        {| db := db w; script_cache := script_cache w; clock := clock w;
           faults := faults w; log := log w;
           lua_sha := Some sha; _refund_script_sha := _refund_script_sha w |}).

Definition get_refund_script_sha : M (option script) :=
  λ w, (Return (_refund_script_sha w), w).

Definition set_refund_script_sha (sha : script) : M unit :=
  λ w, (Return tt,
        {| db := db w; script_cache := script_cache w; clock := clock w;
           faults := faults w; log := log w;
           lua_sha := lua_sha w; _refund_script_sha := Some sha |}).

(** ** Requests and the route table *)

(** [dependency.dependency]: the identity of the object (what [is]
    compares) and the name of its class. *)
Record Dependency := {
  dependency_id : nat;
  dependency_class : string
}.

Record Route := {
  path : string;
  methods : list string;
  dependencies : list Dependency
}.

(** The part of a connection the package reads; a websocket is read
    through the same attributes.  [headers] and [query_params] are the raw
    items, in order. *)
Record Request := {
  app_routes : list Route;
  scope_path : string;
  method : string;
  headers : list (string * string);
  query_params : list (string * string);
  client_host : string
}.

Abbreviation WebSocket := Request.

(** [str.lower()] on the ASCII letters header names are made of. *)
Definition lower_ascii (c : ascii) : ascii :=
  let n := nat_of_ascii c in
  if (65 <=? n)%nat && (n <=? 90)%nat then ascii_of_nat (n + 32) else c.

Fixpoint lower (s : string) : string :=
  match s with
  | EmptyString => EmptyString
  | String c rest => String (lower_ascii c) (lower rest)
  end.

(** [request.headers.get(name)]: the name is lower-cased and the first
    raw header of that name answers (raw header names arrive in lower
    case). *)
Fixpoint first_header (raw : list (string * string)) (key : string) : option string :=
  match raw with
  | [] => None
  | (k, v) :: rest => if bool_decide (k = key) then Some v else first_header rest key
  end.

Definition headers_get (raw : list (string * string)) (name : string) : option string :=
  first_header raw (lower name).

(** [request.headers.get(name, default)]. *)
Definition headers_get_default (raw : list (string * string)) (name dflt : string)
    : string :=
  default dflt (headers_get raw name).

(** [request.query_params.get(name, default)]: of several values given
    for one name, the last one answers. *)
Fixpoint query_get (items : list (string * string)) (name dflt : string) : string :=
  match items with
  | [] => dflt
  | (k, v) :: rest => query_get rest name (if bool_decide (k = name) then v else dflt)
  end.

(** [s.split(",")[0]]. *)
Fixpoint split_comma_0 (s : string) : string :=
  match s with
  | EmptyString => EmptyString
  | String c rest =>
      if bool_decide (c = ","%char) then EmptyString else String c (split_comma_0 rest)
  end.

Definition default_identifier (request : Request) : string :=
  let forwarded := headers_get (headers request) "X-Forwarded-For" in
  let ip :=
    match forwarded with
    | Some f => if bool_decide (f = "") then client_host request else split_comma_0 f
    | None => client_host request
    end in
  ip +:+ ":" +:+ scope_path request.

(** [a / b] on two integers is Python's true division: the binary64
    number nearest to the quotient, ties going to the even significand.
    [round_half_even n d] is the integer nearest to [n / d] under that
    rule. *)
Definition round_half_even (n d : Z) : Z :=
  let q := n `div` d in
  let r := n `mod` d in
  if (2 * r <? d)%Z then q
  else if (d <? 2 * r)%Z then q + 1
  else if Z.even q then q else q + 1.

(** [n < b * 2^t], for an exponent [t] of either sign. *)
Definition below_pow2 (n b t : Z) : bool :=
  if (0 <=? t)%Z then (n <? b * 2 ^ t)%Z else (n * 2 ^ (- t) <? b)%Z.

(** [ceil(a / b)] for [b > 0]: the quotient is first rounded to a
    significand of 53 bits ([e] is its binary exponent and [2^(-s)] the
    weight of its last bit), and [math.ceil] then takes the ceiling of
    that number.  Quotients of the integers of the store protocol are
    far inside the exponent range of binary64. *)
Definition ceil_div (a b : Z) : Z :=
  if (a =? 0)%Z then 0 else
  let n := Z.abs a in
  let t := Z.log2 n - Z.log2 b in
  let e := if below_pow2 n b t then t - 1 else t in
  let s := 52 - e in
  if (0 <=? s)%Z then
    let m := round_half_even (n * 2 ^ s) b in
    if (0 <? a)%Z then - ((- m) `div` 2 ^ s) else - (m `div` 2 ^ s)
  else
    let m := round_half_even n (b * 2 ^ (- s)) in
    if (0 <? a)%Z then m * 2 ^ (- s) else - (m * 2 ^ (- s)).

Definition HTTP_429_TOO_MANY_REQUESTS : Z := 429.

Definition http_default_callback (request : Request) (pexpire : Z) : M unit :=
  let expire := ceil_div pexpire 1000 in
  raise (HTTPException HTTP_429_TOO_MANY_REQUESTS "Too Many Requests"
           [("Retry-After", pretty expire)]).

Definition ws_default_callback (ws : WebSocket) (pexpire : Z) : M unit :=
  let expire := ceil_div pexpire 1000 in
  raise (HTTPException HTTP_429_TOO_MANY_REQUESTS "Too Many Requests"
           [("Retry-After", pretty expire)]).

(** ** Hashing *)

(** [hashlib.sha256(data).hexdigest()] on the encoded text. *)
Class Hashlib := { sha256_hexdigest : string → string }.

(** [hash_password] of [fastapi_limiter/__init__.py]. *)
Definition hash_password `{Hashlib} (password : string) : string :=
  sha256_hexdigest password.

(** [hash_input] of [fastapi_limiter/depends.py]. *)
Definition hash_input `{Hashlib} (value : string) : string :=
  sha256_hexdigest value.

(** [secrets.compare_digest]: equality (its timing is not modelled). *)
Definition compare_digest (a b : string) : bool := bool_decide (a = b).

(** ** Small pieces of Python *)

(** Reading a class attribute that may not exist yet. *)
Definition attr {A} (a : option A) : M A :=
  match a with
  | Some x => ret x
  | None => raise AttributeError
  end.

(** Calling a value that may be [None]. *)
Definition call {A B C} (f : option (A → B → M C)) (a : A) (b : B) : M C :=
  match f with
  | Some g => g a b
  | None => raise TypeError
  end.

Definition call_identifier (f : option (Request → string)) (request : Request)
    : result string :=
  match f with
  | Some g => Return (g request)
  | None => Raise TypeError
  end.

(** A computation that only returns or raises. *)
Definition lift {A} (r : result A) : M A := λ w, (r, w).

(** [a or b] on optional callables. *)
Definition or_else {A} (a b : option A) : option A :=
  match a with
  | Some x => Some x
  | None => b
  end.

(** [f"{x}"] for an optional string. *)
Definition fstr (x : option string) : string := default "None" x.

(** ** [class FastAPILimiter] *)

Module FastAPILimiter.

(** The class attributes, except [lua_sha], which is reassigned while
    requests are served and therefore lives in [World].  The last four
    attributes are created by [init]. *)
Record t := {
  redis : option unit;
  prefix : option string;
  identifier : option (Request → string);
  http_callback : option (Request → Z → M unit);
  ws_callback : option (WebSocket → Z → M unit);
  authorized_passwords : option (list string);
  query_param_names : option (list string);
  bearer_token_headers : option (list string);
  api_key_headers : option (list string)
}.

(** The class as declared, before [init]. *)
Definition declared : t :=
  {| redis := None; prefix := None; identifier := None;
     http_callback := None; ws_callback := None;
     authorized_passwords := None; query_param_names := None;
     bearer_token_headers := None; api_key_headers := None |}.

Definition init `{Hashlib}
    (redis : option unit)
    (prefix : string)
    (identifier : option (Request → string))
    (http_callback : option (Request → Z → M unit))
    (ws_callback : option (WebSocket → Z → M unit))
    (authorized_passwords query_param_names
       bearer_token_headers api_key_headers : option (list string))
  : M t :=
  sha <~ script_load LimiterScript ;;
  set_lua_sha sha ;;;
  ret {| redis := redis; prefix := Some prefix; identifier := identifier;
         http_callback := http_callback; ws_callback := ws_callback;
         authorized_passwords :=
           Some (map hash_password (default [] authorized_passwords));
         query_param_names := Some (default [] query_param_names);
         bearer_token_headers := Some (default [] bearer_token_headers);
         api_key_headers := Some (default [] api_key_headers) |}.

End FastAPILimiter.

(** ** [class RateLimiter] *)

(** [request.method in route.methods and route.path == request.scope["path"]]. *)
Definition route_matches (request : Request) (route : Route) : bool :=
  bool_decide (path route = scope_path request)
  && bool_decide (method request ∈ methods route).

(** The inner loop of the charge path: the first position whose
    dependency is the limiter itself. *)
Fixpoint find_self (self_id : nat) (deps : list Dependency) (j : nat) : option nat :=
  match deps with
  | [] => None
  | dependency :: rest =>
      if bool_decide (dependency_id dependency = self_id) then Some j
      else find_self self_id rest (S j)
  end.

(** The outer loop of the charge path; it runs over the whole table, so
    a later matching route overwrites [route_index]. *)
Fixpoint scan_routes (self_id : nat) (request : Request) (routes : list Route)
    (i route_index dep_index : nat) : nat * nat :=
  match routes with
  | [] => (route_index, dep_index)
  | route :: rest =>
      if route_matches request route then
        scan_routes self_id request rest (S i) i
          (default dep_index (find_self self_id (dependencies route) 0))
      else
        scan_routes self_id request rest (S i) route_index dep_index
  end.

(** [f"{prefix}:{rate_key}:{route_index}:{dep_index}"]. *)
Definition http_key (prefix : option string) (rate_key : string)
    (route_index dep_index : nat) : string :=
  fstr prefix +:+ ":" +:+ rate_key +:+ ":" +:+ pretty route_index
    +:+ ":" +:+ pretty dep_index.

(** [f"{prefix}:ws:{rate_key}:{context_key}"]. *)
Definition ws_key (prefix : option string) (rate_key context_key : string) : string :=
  fstr prefix +:+ ":ws:" +:+ rate_key +:+ ":" +:+ context_key.

Module RateLimiter.

(** [self_id] stands for the identity of the object, which is what
    [self is dependency.dependency] compares.  The [response] argument of
    [__call__] is only handed on to the callback and is left out, here
    and in the callbacks. *)
Record t := {
  self_id : nat;
  times : Z;
  milliseconds : Z;
  identifier : option (Request → string);
  callback : option (Request → Z → M unit);
  enable_bypass : bool
}.

Definition __init__ (self_id : nat) (times milliseconds seconds minutes hours : Z)
    (identifier : option (Request → string))
    (callback : option (Request → Z → M unit))
    (enable_bypass : bool) : t :=
  {| self_id := self_id;
     times := times;
     milliseconds := milliseconds + 1000 * seconds + 60000 * minutes + 3600000 * hours;
     identifier := identifier;
     callback := callback;
     enable_bypass := enable_bypass |}.

Definition _check (self : t) (key : string) : M Z :=
  sha <~ get_lua_sha ;;
  evalsha sha key [times self; milliseconds self].

(** One of the three bypass loops: [lookup] reads the candidate value
    for a configured name; the result says whether the call returned
    from inside the loop. *)
Fixpoint bypass_loop `{Hashlib} (cfg : FastAPILimiter.t) (lookup : string → string)
    (names : list string) : M bool :=
  match names with
  | [] => ret false
  | name :: rest =>
      let hashed_value := hash_input (lookup name) in
      passwords <~ attr (FastAPILimiter.authorized_passwords cfg) ;;
      if existsb (compare_digest hashed_value) passwords then ret true
      else bypass_loop cfg lookup rest
  end.

Definition bypass `{Hashlib} (cfg : FastAPILimiter.t) (request : Request) : M bool :=
  names <~ attr (FastAPILimiter.query_param_names cfg) ;;
  hit <~ bypass_loop cfg (λ param, query_get (query_params request) param "") names ;;
  if hit : bool then ret true else
  names <~ attr (FastAPILimiter.bearer_token_headers cfg) ;;
  hit <~ bypass_loop cfg
           (λ header, headers_get_default (headers request) (header +:+ " ") "") names ;;
  if hit : bool then ret true else
  names <~ attr (FastAPILimiter.api_key_headers cfg) ;;
  bypass_loop cfg (λ header, headers_get_default (headers request) header "") names.

(** The scope key of a call: the route scan, the identifier and the
    formatting of the key. *)
Definition key (cfg : FastAPILimiter.t) (self : t) (request : Request)
  : result string :=
  let '(route_index, dep_index) :=
    scan_routes (self_id self) request (app_routes request) 0 0 0 in
  let identifier := or_else (identifier self) (FastAPILimiter.identifier cfg) in
  match call_identifier identifier request with
  | Return rate_key =>
      Return (http_key (FastAPILimiter.prefix cfg) rate_key route_index dep_index)
  | Raise e => Raise e
  end.

(** The accounting part of [__call__], after the bypass block. *)
Definition account (cfg : FastAPILimiter.t) (self : t) (request : Request) : M unit :=
  match FastAPILimiter.redis cfg with
  | None =>
      raise (Exception "You must call FastAPILimiter.init in startup event of fastapi!")
  | Some _ =>
      let callback := or_else (callback self) (FastAPILimiter.http_callback cfg) in
      key <~ lift (key cfg self request) ;;
      pexpire <~ try_except (_check self key) is_NoScriptError
                   (sha <~ script_load LimiterScript ;;
                    set_lua_sha sha ;;;
                    _check self key) ;;
      if bool_decide (pexpire ≠ 0) then call callback request pexpire
      else ret tt
  end.

Definition __call__ `{Hashlib} (cfg : FastAPILimiter.t) (self : t) (request : Request)
  : M unit :=
  bypassed <~ (if enable_bypass self then bypass cfg request else ret false) ;;
  if bypassed : bool then ret tt else account cfg self request.

End RateLimiter.

(** ** [class WebSocketRateLimiter(RateLimiter)] *)

Module WebSocketRateLimiter.

Definition key (cfg : FastAPILimiter.t) (self : RateLimiter.t) (ws : WebSocket)
    (context_key : string) : result string :=
  let identifier :=
    or_else (RateLimiter.identifier self) (FastAPILimiter.identifier cfg) in
  match call_identifier identifier ws with
  | Return rate_key =>
      Return (ws_key (FastAPILimiter.prefix cfg) rate_key context_key)
  | Raise e => Raise e
  end.

Definition __call__ (cfg : FastAPILimiter.t) (self : RateLimiter.t) (ws : WebSocket)
    (context_key : string) : M unit :=
  match FastAPILimiter.redis cfg with
  | None =>
      raise (Exception "You must call FastAPILimiter.init in startup event of fastapi!")
  | Some _ =>
      key <~ lift (key cfg self ws context_key) ;;
      pexpire <~ RateLimiter._check self key ;;
      let callback :=
        or_else (RateLimiter.callback self) (FastAPILimiter.ws_callback cfg) in
      if bool_decide (pexpire ≠ 0) then call callback ws pexpire
      else ret tt
  end.

End WebSocketRateLimiter.

(** ** [refund_rate_limit_for_request] *)

(** The key the refund builds for the dependency at position [j] of the
    route at position [route_index]. *)
Definition refund_key (cfg : FastAPILimiter.t) (request : Request)
    (route_index j : nat) : result string :=
  let identifier := FastAPILimiter.identifier cfg in
  match call_identifier identifier request with
  | Return rate_key =>
      Return (http_key (FastAPILimiter.prefix cfg) rate_key route_index j)
  | Raise e => Raise e
  end.

(** The body of the inner loop for a dependency of class [RateLimiter]. *)
Definition refund_one (cfg : FastAPILimiter.t) (request : Request)
    (route_index j : nat) : M unit :=
  key <~ lift (refund_key cfg request route_index j) ;;
  loaded <~ get_refund_script_sha ;;
  (match loaded with
   | None => sha <~ script_load RefundScript ;; set_refund_script_sha sha
   | Some _ => ret tt
   end) ;;;
  try_except
    (sha <~ get_refund_script_sha ;; _ <~ evalsha sha key [] ;; ret tt)
    anything
    (sha <~ script_load RefundScript ;;
     set_refund_script_sha sha ;;;
     sha <~ get_refund_script_sha ;;
     _ <~ evalsha sha key [] ;;
     ret tt).

Fixpoint refund_dependencies (cfg : FastAPILimiter.t) (request : Request)
    (route_index : nat) (deps : list Dependency) (j : nat) : M unit :=
  match deps with
  | [] => ret tt
  | dependency :: rest =>
      let dep_class := dependency_class dependency in
      (if bool_decide (dep_class = "RateLimiter")
       then refund_one cfg request route_index j
       else ret tt) ;;;
      refund_dependencies cfg request route_index rest (S j)
  end.

(** The outer loop: it stops at the first matching route. *)
Fixpoint refund_routes (cfg : FastAPILimiter.t) (request : Request)
    (routes : list Route) (i : nat) : M unit :=
  match routes with
  | [] => ret tt
  | route :: rest =>
      if route_matches request route then
        refund_dependencies cfg request i (dependencies route) 0
      else
        refund_routes cfg request rest (S i)
  end.

Definition refund_rate_limit_for_request (cfg : FastAPILimiter.t) (request : Request)
    : M unit :=
  match FastAPILimiter.redis cfg with
  | None => ret tt
  | Some _ => refund_routes cfg request (app_routes request) 0
  end.

(** ** The example application ([examples/main.py]) *)

Module main.

Definition limiter (self_id : nat) (times seconds : Z) (enable_bypass : bool)
  : RateLimiter.t :=
  RateLimiter.__init__ self_id times 0 seconds 0 0 None None enable_bypass.

Definition index_get := limiter 1 2 5 false.
Definition index_post := limiter 2 1 5 false.
Definition multiple_1 := limiter 3 1 5 false.
Definition multiple_2 := limiter 4 2 15 false.
Definition bypass_bearer := limiter 5 2 5 true.
Definition bypass_query_params := limiter 6 2 5 true.
Definition ratelimit := limiter 7 1 5 false.

Definition Depends (l : RateLimiter.t) : Dependency :=
  {| dependency_id := RateLimiter.self_id l; dependency_class := "RateLimiter" |}.

Definition routes : list Route :=
  [ {| path := "/"; methods := ["GET"]; dependencies := [Depends index_get] |};
    {| path := "/"; methods := ["POST"]; dependencies := [Depends index_post] |};
    {| path := "/multiple"; methods := ["GET"];
       dependencies := [Depends multiple_1; Depends multiple_2] |};
    {| path := "/bypass_bearer"; methods := ["GET"];
       dependencies := [Depends bypass_bearer] |};
    {| path := "/bypass_query_params"; methods := ["GET"];
       dependencies := [Depends bypass_query_params] |} ].

Definition request (method scope_path : string)
    (headers query_params : list (string * string)) : Request :=
  {| app_routes := routes; scope_path := scope_path; method := method;
     headers := headers; query_params := query_params;
     client_host := "127.0.0.1" |}.

(** The class after the [FastAPILimiter.init] call of [lifespan]. *)
Definition cfg `{Hashlib} : FastAPILimiter.t :=
  {| FastAPILimiter.redis := Some tt;
     FastAPILimiter.prefix := Some "fastapi-limiter";
     FastAPILimiter.identifier := Some default_identifier;
     FastAPILimiter.http_callback := Some http_default_callback;
     FastAPILimiter.ws_callback := Some ws_default_callback;
     FastAPILimiter.authorized_passwords :=
       Some [hash_password "secrets_bypass_password";
             hash_password "another_super_secret_bypass_password"];
     FastAPILimiter.query_param_names := Some ["password"; "special_param"];
     FastAPILimiter.bearer_token_headers := Some ["bearer"];
     FastAPILimiter.api_key_headers := Some ["Api-Key"; "X-API-Key"] |}.

(** The process and an empty store before and after that call. *)
Definition fresh : World :=
  {| db := ∅; script_cache := []; clock := 0; faults := []; log := [];
     lua_sha := None; _refund_script_sha := None |}.

Definition started : World :=
  {| db := ∅; script_cache := [LimiterScript]; clock := 0; faults := [];
     log := [ScriptLoad LimiterScript];
     lua_sha := Some LimiterScript; _refund_script_sha := None |}.

(** The same process after the store has dropped its script cache. *)
Definition evicted : World :=
  {| db := ∅; script_cache := []; clock := 0; faults := [];
     log := [ScriptLoad LimiterScript];
     lua_sha := Some LimiterScript; _refund_script_sha := None |}.

(** A variant of the application: the limiter of [GET /] counts per
    user, through its own [identifier]. *)
Definition user_identifier (request : Request) : string :=
  headers_get_default (headers request) "x-user" "anonymous".

Definition index_get_per_user : RateLimiter.t :=
  RateLimiter.__init__ 1 2 0 5 0 0 (Some user_identifier) None false.

(** A variant of the application: one more route, whose path has a
    parameter and which carries two limiters,
    [@app.get("/items/{item_id}", dependencies=[Depends(RateLimiter(times=2,
    seconds=15)), Depends(RateLimiter(times=1, seconds=5))])], and a
    request [GET /items/5] to it. *)
Definition items_1 := limiter 8 2 15 false.
Definition items_2 := limiter 9 1 5 false.

Definition items_routes : list Route :=
  routes ++ [ {| path := "/items/{item_id}"; methods := ["GET"];
                 dependencies := [Depends items_1; Depends items_2] |} ].

Definition items_request : Request :=
  {| app_routes := items_routes; scope_path := "/items/5"; method := "GET";
     headers := []; query_params := []; client_host := "127.0.0.1" |}.

(** The class after an [init] that names a bypass parameter and gives
    no password. *)
Definition cfg_without_passwords : FastAPILimiter.t :=
  {| FastAPILimiter.redis := Some tt;
     FastAPILimiter.prefix := Some "fastapi-limiter";
     FastAPILimiter.identifier := Some default_identifier;
     FastAPILimiter.http_callback := Some http_default_callback;
     FastAPILimiter.ws_callback := Some ws_default_callback;
     FastAPILimiter.authorized_passwords := Some [];
     FastAPILimiter.query_param_names := Some ["password"];
     FastAPILimiter.bearer_token_headers := Some [];
     FastAPILimiter.api_key_headers := Some [] |}.

(** A process that has refunded before, facing a store that has since
    dropped the refund script. *)
Definition refund_evicted : World :=
  {| db := {[ "fastapi-limiter:127.0.0.1:/:1:0" := Entry 1 (Some 5000) ]};
     script_cache := [LimiterScript]; clock := 0; faults := []; log := [];
     lua_sha := Some LimiterScript; _refund_script_sha := Some RefundScript |}.

(** The process after one [POST /] has been counted. *)
Definition after_post `{Hashlib} : World :=
  snd (RateLimiter.__call__ cfg index_post (request "POST" "/" [] []) started).

(** One turn of the loop of [websocket_endpoint]: the text received
    and the text sent back. *)
Definition websocket_turn `{Hashlib} (websocket : WebSocket) (data : string)
  : M string :=
  try_except
    (WebSocketRateLimiter.__call__ cfg ratelimit websocket data ;;;
     ret "Hello, world")
    is_HTTPException
    (ret "Hello again").

(** The loop, run on what the client sends: each text comes with the
    time [receive_text] waited for it.  The result lists the texts sent
    back. *)
Fixpoint websocket_endpoint `{Hashlib} (websocket : WebSocket)
    (received : list (nat * string)) : M (list string) :=
  match received with
  | [] => ret []
  | (waited, data) :: rest =>
      elapse waited ;;;
      sent <~ websocket_turn websocket data ;;
      more <~ websocket_endpoint websocket rest ;;
      ret (sent :: more)
  end.

(** A stand-in digest, to run the examples: it is injective, as the
    examples need, and nothing else is asked of it. *)
Definition tagging : Hashlib :=
  {| sha256_hexdigest := λ s, "sha256:" +:+ s |}.

End main.

(** The same limiter with another [enable_bypass]. *)
Definition with_enable_bypass (b : bool) (self : RateLimiter.t) : RateLimiter.t :=
  {| RateLimiter.self_id := RateLimiter.self_id self;
     RateLimiter.times := RateLimiter.times self;
     RateLimiter.milliseconds := RateLimiter.milliseconds self;
     RateLimiter.identifier := RateLimiter.identifier self;
     RateLimiter.callback := RateLimiter.callback self;
     RateLimiter.enable_bypass := b |}.

(** The store answers the next command, and the counter script is known
    to both sides. *)
Definition served (w : World) : Prop :=
  (faults w = [] ∨ ∃ fs, faults w = Reachable :: fs)
  ∧ lua_sha w = Some LimiterScript
  ∧ LimiterScript ∈ script_cache w.

(** ** Vocabulary of the statements *)

(** The keys the process asked the store to run a script on, oldest
    first. *)
Fixpoint evalsha_keys (evs : list event) : list string :=
  match evs with
  | [] => []
  | EvalSha _ key _ :: rest => key :: evalsha_keys rest
  | ScriptLoad _ :: rest => evalsha_keys rest
  end.

Fixpoint script_loads (evs : list event) : nat :=
  match evs with
  | [] => 0%nat
  | ScriptLoad _ :: rest => S (script_loads rest)
  | EvalSha _ _ _ :: rest => script_loads rest
  end.

(** The limiter [self_id] is registered at position [j] of the route at
    position [i], and that route is the one route of the table that
    [request] matches. *)
Definition registered_at (request : Request) (self_id : nat) (i j : nat) : Prop :=
  ∃ route,
    app_routes request !! i = Some route
    ∧ route_matches request route = true
    ∧ (∀ i' route', app_routes request !! i' = Some route' →
         route_matches request route' = true → i' = i)
    ∧ find_self self_id (dependencies route) 0 = Some j.

Fixpoint no_colon (s : string) : Prop :=
  match s with
  | EmptyString => True
  | String c rest => c ≠ ":"%char ∧ no_colon rest
  end.

Fixpoint no_comma (s : string) : Prop :=
  match s with
  | EmptyString => True
  | String c rest => c ≠ ","%char ∧ no_comma rest
  end.

(** The positions, from [j] on, of the dependencies the refund acts on. *)
Fixpoint limiter_positions (deps : list Dependency) (j : nat) : list nat :=
  match deps with
  | [] => []
  | dependency :: rest =>
      if bool_decide (dependency_class dependency = "RateLimiter")
      then j :: limiter_positions rest (S j)
      else limiter_positions rest (S j)
  end.

(** The store answers every command, and the refund script is either
    not loaded yet on the process side or known to both sides. *)
Definition refund_ready (w : World) : Prop :=
  faults w = []
  ∧ (_refund_script_sha w = None
     ∨ (_refund_script_sha w = Some RefundScript ∧ RefundScript ∈ script_cache w)).

(** * Properties of the scripts *)

Section store_facts.
Implicit Types (db : gmap string entry) (key : string) (e : entry).

Lemma find_Some now db key e :
  Redis.find now db key = Some e ↔ db !! key = Some e ∧ Redis.live now e = true.
Proof.
  unfold Redis.find. destruct (db !! key) as [e'|]; [|by intuition].
  destruct (Redis.live now e') eqn:Hlive; split.
  - by intros [= ->].
  - by intros [[= ->] _].
  - done.
  - intros [[= ->] Hl]. congruence.
Qed.

Lemma find_None now db key :
  Redis.find now db key = None ↔
  db !! key = None ∨ ∃ e, db !! key = Some e ∧ Redis.live now e = false.
Proof.
  unfold Redis.find. destruct (db !! key) as [e'|]; [|by intuition].
  destruct (Redis.live now e') eqn:Hlive; split.
  - done.
  - intros [[=] | (e'' & [= <-] & Hl)]. congruence.
  - intros _. right. by exists e'.
  - done.
Qed.

Lemma live_later now t e : now <= t → Redis.live now e = false → Redis.live t e = false.
Proof.
  unfold Redis.live. destruct (expire_at e); [|done].
  intros Hle H. apply bool_decide_eq_false in H. apply bool_decide_eq_false. lia.
Qed.

Lemma count_of_find now db key e :
  Redis.find now db key = Some e → count_of now db key = value e.
Proof. unfold count_of, Redis.GET. by intros ->. Qed.

Lemma count_of_absent now db key :
  Redis.find now db key = None → count_of now db key = 0.
Proof. unfold count_of, Redis.GET. by intros ->. Qed.

Lemma lua_script_fresh now db key limit window :
  count_of now db key <= 0 → 0 < window →
  lua_script now db key limit window =
    (IntegerReply 0, <[key := Entry 1 (Some (now + window))]> db).
Proof.
  intros H HW. unfold lua_script, Redis.SET_PX, count_of in *.
  rewrite bool_decide_eq_false_2 by lia.
  by rewrite bool_decide_eq_true_2.
Qed.

(** The store rejects an expiry that is not positive: the script ends
    with an error and has written nothing. *)
Lemma lua_script_rejected now db key limit window :
  count_of now db key <= 0 → window <= 0 →
  lua_script now db key limit window = (ErrorReply, db).
Proof.
  intros H HW. unfold lua_script, Redis.SET_PX, count_of in *.
  rewrite bool_decide_eq_false_2 by lia.
  by rewrite bool_decide_eq_false_2 by lia.
Qed.

Lemma lua_script_increment now db key limit window e :
  Redis.find now db key = Some e → value e > 0 → value e + 1 <= limit →
  lua_script now db key limit window =
    (IntegerReply 0, <[key := Entry (value e + 1) (expire_at e)]> db).
Proof.
  intros Hf Hpos Hle. unfold lua_script, Redis.GET, Redis.INCR. rewrite Hf. simpl.
  rewrite bool_decide_eq_true_2 by done.
  rewrite bool_decide_eq_false_2 by lia. done.
Qed.

Lemma lua_script_deny now db key limit window e :
  Redis.find now db key = Some e → value e > 0 → value e + 1 > limit →
  lua_script now db key limit window =
    (IntegerReply
       (match expire_at e with Some deadline => deadline - now | None => -1 end), db).
Proof.
  intros Hf Hpos Hgt. unfold lua_script, Redis.GET, Redis.PTTL. rewrite Hf. simpl.
  rewrite bool_decide_eq_true_2 by done.
  rewrite bool_decide_eq_true_2 by done. done.
Qed.

Lemma refund_script_decr now db key e :
  Redis.find now db key = Some e → value e > 0 →
  _refund_script now db key =
    (value e, <[key := Entry (value e - 1) (expire_at e)]> db).
Proof.
  intros Hf Hpos. unfold _refund_script, Redis.GET, Redis.DECR. rewrite Hf. simpl.
  by rewrite bool_decide_eq_true_2.
Qed.

Lemma refund_script_floor now db key :
  count_of now db key <= 0 →
  _refund_script now db key = (count_of now db key, db).
Proof.
  intros H. unfold _refund_script, count_of in *.
  rewrite bool_decide_eq_false_2; [done | lia].
Qed.

(** The script only ever touches the key it is given. *)
Lemma run_op_other now db key o k :
  k ≠ key → snd (run_op now db key o) !! k = db !! k.
Proof.
  intros Hne. destruct o as [limit window|]; simpl.
  - unfold lua_script, Redis.INCR, Redis.SET_PX.
    repeat case_bool_decide; simpl; try done.
    + destruct (Redis.find now db key); by rewrite lookup_insert_ne.
    + by rewrite lookup_insert_ne.
  - unfold _refund_script, Redis.DECR. simpl.
    case_bool_decide; [|done].
    destruct (Redis.find now db key); by rewrite lookup_insert_ne.
Qed.

End store_facts.

(** ** The counter script *)

(** C2, as stated, fails at window 0: on an absent count the store
    rejects the [SET ... px 0] of the script, which ends with an error
    and stores nothing, where the claim has count 1 stored and 0
    returned. *)
Lemma lua_script_transition_counterexample :
  Redis.GET 10 ∅ "k" = None
  ∧ lua_script 10 ∅ "k" 2 0 = (ErrorReply, ∅)
  ∧ lua_script 10 ∅ "k" 2 0
      ≠ (IntegerReply 0, <["k" := Entry 1 (Some (10 + 0))]> ∅).
Proof.
  assert (Hrun : lua_script 10 ∅ "k" 2 0 = (ErrorReply, ∅)).
  { apply lua_script_rejected; [|lia]. by rewrite count_of_absent. }
  split; [done|]. split; [exact Hrun|]. by rewrite Hrun.
Qed.

(** C2. One execution of the counter script, for every key and limit:
    on an absent or zero count, and for every window above 0, it stores
    count 1 with expiry [window] and returns 0; on a positive count with
    [count + 1 <= limit] it stores [count + 1], keeps the expiry and
    returns 0; on a positive count with [count + 1 > limit] it returns
    the remaining time-to-live of the record and leaves the database as
    it was.  The last two cases hold for every window. *)
Theorem lua_script_transition (now : Z) (db : gmap string entry) (key : string)
    (limit window : Z) :
  (Redis.GET now db key = None ∨ Redis.GET now db key = Some 0 →
     0 < window →
     lua_script now db key limit window =
       (IntegerReply 0, <[key := Entry 1 (Some (now + window))]> db))
  ∧ (∀ e, Redis.find now db key = Some e → value e > 0 → value e + 1 <= limit →
       lua_script now db key limit window =
         (IntegerReply 0, <[key := Entry (value e + 1) (expire_at e)]> db))
  ∧ (∀ e, Redis.find now db key = Some e → value e > 0 → value e + 1 > limit →
       lua_script now db key limit window = (IntegerReply (Redis.PTTL now db key), db)
       ∧ ∀ deadline, expire_at e = Some deadline →
           Redis.PTTL now db key = deadline - now).
Proof.
  split; [|split].
  - intros H HW. apply lua_script_fresh; [|done].
    unfold count_of. by destruct H as [-> | ->].
  - intros e. apply lua_script_increment.
  - intros e Hf Hpos Hgt. split.
    + rewrite (lua_script_deny _ _ _ _ _ e) by done.
      unfold Redis.PTTL. by rewrite Hf.
    + intros deadline Hd. unfold Redis.PTTL. by rewrite Hf, Hd.
Qed.

Lemma lua_script_transition_witness :
  lua_script 10 ∅ "k" 2 5000
    = (IntegerReply 0, <["k" := Entry 1 (Some (10 + 5000))]> ∅)
  ∧ lua_script 10 {[ "k" := Entry 2 (Some 5010) ]} "k" 2 5000
    = (IntegerReply 5000, {[ "k" := Entry 2 (Some 5010) ]}).
Proof.
  split.
  - destruct (lua_script_transition 10 ∅ "k" 2 5000) as (Hset & _ & _).
    apply Hset; [left; reflexivity | lia].
  - destruct (lua_script_transition 10 {[ "k" := Entry 2 (Some 5010) ]} "k" 2 5000)
      as (_ & _ & Hdeny).
    destruct (Hdeny (Entry 2 (Some 5010))) as [Heq Httl].
    + reflexivity.
    + simpl. lia.
    + simpl. lia.
    + rewrite Heq, (Httl 5010) by reflexivity. reflexivity.
Defined.

(** Inside the window opened at [t0], a record that holds [c >= 1] answers
    0 for the next [limit - c] calls and the remaining time afterwards. *)
Lemma run_checks_in_window (key : string) (limit window t0 : Z) (ts : list Z) :
  ∀ (db : gmap string entry) (c : Z),
    db !! key = Some (Entry c (Some (t0 + window))) →
    1 <= c →
    Forall (λ t, t0 <= t < t0 + window) ts →
    length (fst (run_checks db key limit window ts)) = length ts
    ∧ ∀ (i : nat) (answer : reply),
        fst (run_checks db key limit window ts) !! i = Some answer →
        ∃ r, answer = IntegerReply r
             ∧ (Z.of_nat i < limit - c → r = 0)
             ∧ (limit - c <= Z.of_nat i → 0 < r <= window).
Proof.
  induction ts as [|t ts IH]; intros db c Hdb Hc Hts.
  - split; [done|]. intros i r Hr. simpl in Hr. by rewrite lookup_nil in Hr.
  - apply Forall_cons in Hts as [Ht Hts].
    assert (Hf : Redis.find t db key = Some (Entry c (Some (t0 + window)))).
    { apply find_Some. split; [done|]. simpl. apply bool_decide_eq_true. lia. }
    simpl.
    destruct (decide (c + 1 > limit)) as [Hgt|Hle].
    + rewrite (lua_script_deny _ _ _ _ _ _ Hf) by (simpl; lia). simpl.
      destruct (run_checks db key limit window ts) as [rs db2] eqn:Hrun.
      destruct (IH db c Hdb Hc Hts) as [Hlen Hres]. rewrite Hrun in Hlen, Hres.
      simpl in *. split; [by rewrite Hlen|].
      intros [|i] answer Hr; simpl in Hr.
      * injection Hr as <-. eexists. split; [done|]. lia.
      * apply Hres in Hr as (r & -> & Hr). exists r. split; [done|]. lia.
    + rewrite (lua_script_increment _ _ _ _ _ _ Hf) by (simpl; lia). simpl.
      set (db1 := <[key := Entry (c + 1) (Some (t0 + window))]> db).
      destruct (run_checks db1 key limit window ts) as [rs db2] eqn:Hrun.
      destruct (IH db1 (c + 1)) as [Hlen Hres]; [apply lookup_insert_eq | lia | done |].
      rewrite Hrun in Hlen, Hres.
      simpl in *. split; [by rewrite Hlen|].
      intros [|i] answer Hr; simpl in Hr.
      * injection Hr as <-. exists 0. split; [done|]. lia.
      * apply Hres in Hr as (r & -> & Hr). exists r. split; [done|]. lia.
Qed.

(** C1. For a quota with limit [L >= 1] and window [W > 0] and a counter
    that starts absent, [L + 1] sequential calls on one scope key inside
    one window of length [W] (the first at [t0], the others anywhere in
    [t0, t0 + W)) give: 0 for each of the first [L] calls, and for call
    [L + 1] a value greater than 0 and at most [W]. *)
Theorem quota_allows_then_denies (db : gmap string entry) (key : string)
    (L W t0 : Z) (ts : list Z) :
  1 <= L →
  0 < W →
  Redis.GET t0 db key = None →
  length ts = Z.to_nat L →
  Forall (λ t, t0 <= t < t0 + W) ts →
  (∀ i, (i < Z.to_nat L)%nat →
     fst (run_checks db key L W (t0 :: ts)) !! i = Some (IntegerReply 0))
  ∧ ∃ r, fst (run_checks db key L W (t0 :: ts)) !! Z.to_nat L = Some (IntegerReply r)
         ∧ 0 < r <= W.
Proof.
  intros HL HW Habs Hlen Hts. simpl.
  rewrite lua_script_fresh by (done || unfold count_of; rewrite Habs; simpl; lia).
  set (db1 := <[key := Entry 1 (Some (t0 + W))]> db).
  destruct (run_checks db1 key L W ts) as [rs db2] eqn:Hrun.
  destruct (run_checks_in_window key L W t0 ts db1 1) as [Hl Hres];
    [apply lookup_insert_eq | lia | done |].
  rewrite Hrun in Hl, Hres. simpl in *.
  split.
  - intros [|i] Hi; [done|]. simpl.
    destruct (rs !! i) as [answer|] eqn:Hr.
    + apply Hres in Hr as (r & -> & Hz & _). rewrite Hz; [done | lia].
    + apply lookup_ge_None in Hr. lia.
  - destruct (Z.to_nat L) as [|n] eqn:Hn; [lia|]. simpl.
    destruct (rs !! n) as [answer|] eqn:Hr.
    + apply Hres in Hr as (r & -> & _ & Hd). exists r. split; [done|]. apply Hd. lia.
    + apply lookup_ge_None in Hr. lia.
Qed.

Lemma quota_allows_then_denies_witness :
  (∀ i, (i < 2)%nat →
     fst (run_checks ∅ "fastapi-limiter:A:0:0" 2 5000 [0; 300; 900]) !! i
       = Some (IntegerReply 0))
  ∧ ∃ r, fst (run_checks ∅ "fastapi-limiter:A:0:0" 2 5000 [0; 300; 900]) !! 2%nat
           = Some (IntegerReply r)
         ∧ 0 < r <= 5000.
Proof.
  apply (quota_allows_then_denies ∅ "fastapi-limiter:A:0:0" 2 5000 0 [300; 900]).
  - lia.
  - lia.
  - reflexivity.
  - reflexivity.
  - repeat constructor; lia.
Defined.

(** C7, as stated, fails for a window that is not above 0, and
    [RateLimiter(times=0)] has limit 0 and window 0: on an absent count
    the store rejects the [SET ... px 0], the call ends with an error
    instead of returning 0, and no count is stored. *)
Lemma first_call_ignores_limit_counterexample :
  let self := RateLimiter.__init__ 1 0 0 0 0 0 None None false in
  count_of 7 ∅ "k" = 0
  ∧ lua_script 7 ∅ "k" (RateLimiter.times self) (RateLimiter.milliseconds self)
      = (ErrorReply, ∅)
  ∧ fst (lua_script 7 ∅ "k" (RateLimiter.times self) (RateLimiter.milliseconds self))
      ≠ IntegerReply 0
  ∧ snd (lua_script 7 ∅ "k" (RateLimiter.times self) (RateLimiter.milliseconds self))
      !! "k" = None.
Proof.
  intros self.
  assert (Hrun : lua_script 7 ∅ "k" (RateLimiter.times self)
                   (RateLimiter.milliseconds self) = (ErrorReply, ∅)).
  { apply lua_script_rejected; [by rewrite count_of_absent | by simpl]. }
  rewrite Hrun. by repeat split.
Qed.

(** C7. Whatever the limit, 0 included, and for every window above 0, a
    call on a key whose count is absent or 0 returns 0 and stores count
    1 with a fresh expiry of [window]: the branch that sets the first
    count does not read the limit. *)
Theorem first_call_ignores_limit (now : Z) (db : gmap string entry) (key : string)
    (limit window : Z) :
  count_of now db key = 0 →
  0 < window →
  fst (lua_script now db key limit window) = IntegerReply 0
  ∧ snd (lua_script now db key limit window) !! key
      = Some (Entry 1 (Some (now + window)))
  ∧ lua_script now db key limit window = lua_script now db key 0 window
  ∧ count_of now (snd (lua_script now db key limit window)) key = 1
  ∧ Redis.PTTL now (snd (lua_script now db key limit window)) key = window.
Proof.
  intros H0 HW.
  rewrite !lua_script_fresh by lia. simpl.
  split; [done|]. split; [apply lookup_insert_eq|]. split; [done|].
  assert (Hf : Redis.find now (<[key := Entry 1 (Some (now + window))]> db) key
               = Some (Entry 1 (Some (now + window)))).
  { apply find_Some. split; [apply lookup_insert_eq|].
    simpl. apply bool_decide_eq_true. lia. }
  split.
  - by rewrite (count_of_find _ _ _ _ Hf).
  - unfold Redis.PTTL. rewrite Hf. simpl. lia.
Qed.

Lemma first_call_ignores_limit_witness :
  fst (lua_script 7 ∅ "k" 0 5000) = IntegerReply 0
  ∧ snd (lua_script 7 ∅ "k" 0 5000) !! "k" = Some (Entry 1 (Some (7 + 5000)))
  ∧ lua_script 7 ∅ "k" 0 5000 = lua_script 7 ∅ "k" 0 5000
  ∧ count_of 7 (snd (lua_script 7 ∅ "k" 0 5000)) "k" = 1
  ∧ Redis.PTTL 7 (snd (lua_script 7 ∅ "k" 0 5000)) "k" = 5000.
Proof.
  apply (first_call_ignores_limit 7 ∅ "k" 0 5000); [reflexivity | lia].
Defined.

(** ** The refund script *)

(** C5. One execution of the refund script returns the count as it was;
    a count above 0 is decremented by 1 (the expiry is kept); any other
    count is left alone; and the script never makes a count negative. *)
Theorem refund_script_transition (now : Z) (db : gmap string entry) (key : string) :
  fst (_refund_script now db key) = count_of now db key
  ∧ (count_of now db key > 0 →
       count_of now (snd (_refund_script now db key)) key = count_of now db key - 1
       ∧ ∃ e, Redis.find now db key = Some e
              ∧ snd (_refund_script now db key)
                = <[key := Entry (value e - 1) (expire_at e)]> db)
  ∧ (count_of now db key <= 0 → snd (_refund_script now db key) = db)
  ∧ (0 <= count_of now db key →
       0 <= count_of now (snd (_refund_script now db key)) key)
  ∧ (count_of now (snd (_refund_script now db key)) key < 0 →
       snd (_refund_script now db key) = db).
Proof.
  assert (Hpos : count_of now db key > 0 →
       count_of now (snd (_refund_script now db key)) key = count_of now db key - 1
       ∧ ∃ e, Redis.find now db key = Some e
              ∧ snd (_refund_script now db key)
                = <[key := Entry (value e - 1) (expire_at e)]> db).
  { intros Hc. destruct (Redis.find now db key) as [e|] eqn:Hf.
    - rewrite (count_of_find _ _ _ _ Hf) in *.
      rewrite (refund_script_decr _ _ _ _ Hf Hc). simpl. split; [|by exists e].
      apply (count_of_find _ _ _ (Entry (value e - 1) (expire_at e))).
      apply find_Some. split; [apply lookup_insert_eq|].
      apply find_Some in Hf as [_ Hl]. exact Hl.
    - rewrite (count_of_absent _ _ _ Hf) in Hc. lia. }
  split; [done|]. split; [exact Hpos|]. split; [|split].
  - intros Hc. by rewrite refund_script_floor.
  - intros Hc. destruct (decide (count_of now db key > 0)) as [Hgt|Hle].
    + destruct (Hpos Hgt) as [-> _]. lia.
    + rewrite refund_script_floor by lia. simpl. lia.
  - intros Hneg. destruct (decide (count_of now db key > 0)) as [Hgt|Hle].
    + destruct (Hpos Hgt) as [Heq _]. lia.
    + by rewrite refund_script_floor by lia.
Qed.

Lemma refund_script_transition_witness :
  _refund_script 100 {[ "k" := Entry 1 (Some 5000) ]} "k"
    = (1, {[ "k" := Entry 0 (Some 5000) ]})
  ∧ _refund_script 100 {[ "k" := Entry 0 (Some 5000) ]} "k"
    = (0, {[ "k" := Entry 0 (Some 5000) ]}).
Proof.
  split.
  - destruct (refund_script_transition 100 {[ "k" := Entry 1 (Some 5000) ]} "k")
      as (Hret & Hdec & _).
    destruct Hdec as [_ (e & He & Hdb)]; [vm_compute; reflexivity|].
    apply injective_projections; [exact Hret|].
    rewrite Hdb. vm_compute in He. injection He as <-. vm_compute. reflexivity.
  - destruct (refund_script_transition 100 {[ "k" := Entry 0 (Some 5000) ]} "k")
      as (Hret & _ & Hfloor & _).
    apply injective_projections; [exact Hret|].
    apply Hfloor. vm_compute. discriminate.
Defined.

(** ** The counter invariant *)

Lemma run_op_nonneg (now : Z) (db : gmap string entry) (key : string) (o : store_op) :
  counts_nonneg db → counts_nonneg (snd (run_op now db key o)).
Proof.
  intros Hinv k e'.
  destruct (decide (k = key)) as [->|Hne]; [|rewrite run_op_other by done; apply Hinv].
  destruct o as [limit window|]; unfold run_op in *.
  - destruct (decide (count_of now db key > 0)) as [Hgt|Hle].
    + destruct (Redis.find now db key) as [e|] eqn:Hf;
        [|rewrite (count_of_absent _ _ _ Hf) in Hgt; lia].
      rewrite (count_of_find _ _ _ _ Hf) in Hgt.
      destruct (decide (value e + 1 > limit)).
      * rewrite (lua_script_deny _ _ _ _ _ e) by done. apply Hinv.
      * rewrite (lua_script_increment _ _ _ _ _ e) by (done || lia). simpl.
        rewrite lookup_insert_eq. intros [= <-]. simpl. lia.
    + destruct (decide (0 < window)) as [HW|HW].
      * rewrite lua_script_fresh by lia. simpl.
        rewrite lookup_insert_eq. intros [= <-]. simpl. lia.
      * rewrite lua_script_rejected by lia. apply Hinv.
  - destruct (decide (count_of now db key > 0)) as [Hgt|Hle].
    + destruct (Redis.find now db key) as [e|] eqn:Hf;
        [|rewrite (count_of_absent _ _ _ Hf) in Hgt; lia].
      rewrite (count_of_find _ _ _ _ Hf) in Hgt.
      rewrite (refund_script_decr _ _ _ e) by done. simpl.
      rewrite lookup_insert_eq. intros [= <-]. simpl. lia.
    + rewrite refund_script_floor by lia. apply Hinv.
Qed.

Lemma run_ops_nonneg (sched : list (Z * string * store_op)) :
  ∀ db : gmap string entry, counts_nonneg db → counts_nonneg (run_ops db sched).
Proof.
  induction sched as [|[[now key] o] rest IH]; intros db Hinv; [done|].
  simpl. apply IH. by apply run_op_nonneg.
Qed.

Lemma count_of_nonneg (now : Z) (db : gmap string entry) (key : string) :
  counts_nonneg db → 0 <= count_of now db key.
Proof.
  intros Hinv. destruct (Redis.find now db key) as [e|] eqn:Hf.
  - rewrite (count_of_find _ _ _ _ Hf). apply find_Some in Hf as [Hl _].
    by apply (Hinv key).
  - by rewrite (count_of_absent _ _ _ Hf).
Qed.

Lemma reads_zero_later (now t : Z) (slot : option entry) :
  now <= t → reads_zero now slot → reads_zero t slot.
Proof.
  intros Hle. destruct slot as [e|]; [|done].
  intros [Hz|Hd]; [by left | right; by apply (live_later now)].
Qed.

Lemma same_counts_later (now t : Z) (db1 db2 : gmap string entry) :
  now <= t → same_counts now db1 db2 → same_counts t db1 db2.
Proof.
  intros Hle H k. destruct (H k) as [Heq|[H1 H2]]; [by left|].
  right. split; by apply (reads_zero_later now).
Qed.

Lemma reads_zero_count (now : Z) (db : gmap string entry) (key : string) :
  reads_zero now (db !! key) → count_of now db key = 0.
Proof.
  intros Hz. destruct (Redis.find now db key) as [e|] eqn:Hf.
  - rewrite (count_of_find _ _ _ _ Hf). apply find_Some in Hf as [Hl Hlive].
    rewrite Hl in Hz. destruct Hz; [done | congruence].
  - by apply count_of_absent.
Qed.

Lemma find_agree (now : Z) (db1 db2 : gmap string entry) (key : string) :
  db1 !! key = db2 !! key → Redis.find now db1 key = Redis.find now db2 key.
Proof. unfold Redis.find. by intros ->. Qed.

(** One operation cannot tell the two representations apart, and leaves
    two databases that again differ only in that way. *)
Lemma run_op_same_counts (now : Z) (db1 db2 : gmap string entry) (key : string)
    (o : store_op) :
  same_counts now db1 db2 →
  fst (run_op now db1 key o) = fst (run_op now db2 key o)
  ∧ same_counts now (snd (run_op now db1 key o)) (snd (run_op now db2 key o)).
Proof.
  intros Hsame.
  assert (Hother : ∀ k, k ≠ key →
            snd (run_op now db1 key o) !! k = snd (run_op now db2 key o) !! k
            ∨ (reads_zero now (snd (run_op now db1 key o) !! k)
               ∧ reads_zero now (snd (run_op now db2 key o) !! k))).
  { intros k Hne. rewrite !run_op_other by done. apply Hsame. }
  destruct (Hsame key) as [Heq|[Hz1 Hz2]].
  - assert (Hrun : fst (run_op now db1 key o) = fst (run_op now db2 key o)
                   ∧ snd (run_op now db1 key o) !! key = snd (run_op now db2 key o) !! key).
    { pose proof (find_agree now _ _ _ Heq) as Hf.
      destruct o as [limit window|]; unfold run_op in *.
      - unfold lua_script, Redis.GET, Redis.PTTL, Redis.INCR, Redis.SET_PX.
        rewrite Hf. repeat case_bool_decide; simpl; try done.
        + destruct (Redis.find now db2 key); by rewrite !lookup_insert_eq.
        + by rewrite !lookup_insert_eq.
      - unfold _refund_script, Redis.GET, Redis.DECR. rewrite Hf. simpl.
        case_bool_decide; [|done].
        destruct (Redis.find now db2 key); by rewrite !lookup_insert_eq. }
    destruct Hrun as [Hr Hk]. split; [done|].
    intros k. destruct (decide (k = key)) as [->|Hne]; [by left | by apply Hother].
  - apply reads_zero_count in Hz1 as Hc1. apply reads_zero_count in Hz2 as Hc2.
    destruct o as [limit window|]; unfold run_op in *.
    + destruct (decide (0 < window)) as [HW|HW].
      * rewrite !lua_script_fresh by lia. simpl. split; [done|].
        intros k. destruct (decide (k = key)) as [->|Hne].
        -- left. by rewrite !lookup_insert_eq.
        -- specialize (Hother k Hne). simpl in Hother.
           by rewrite !lua_script_fresh in Hother by lia.
      * rewrite !lua_script_rejected by lia. simpl. split; [done|]. apply Hsame.
    + rewrite !refund_script_floor by lia. simpl. split; [by rewrite Hc1, Hc2|].
      apply Hsame.
Qed.

Lemma run_ops_same_counts (sched : list (Z * string * store_op)) :
  ∀ (now : Z) (db1 db2 : gmap string entry),
    same_counts now db1 db2 → forward now sched →
    run_ops_results db1 sched = run_ops_results db2 sched.
Proof.
  induction sched as [|[[t key] o] rest IH]; intros now db1 db2 Hsame Hfwd; [done|].
  destruct Hfwd as [Hle Hfwd]. simpl.
  apply (same_counts_later now t) in Hsame; [|done].
  destruct (run_op_same_counts t db1 db2 key o Hsame) as [Hr Hs].
  destruct (run_op t db1 key o) as [r1 d1], (run_op t db2 key o) as [r2 d2].
  simpl in *. subst r2. f_equal. by apply (IH t).
Qed.

(** C8. Counts never go below 0: from a database whose counts are all
    at least 0, every sequence of counter and refund executions leaves
    all counts at least 0, so every count read is at least 0.  And an
    absent or expired record behaves as a record that holds 0: putting a
    live record with count 0 where none is readable changes no return
    value of any later sequence of executions. *)
Theorem counter_invariant (db : gmap string entry)
    (sched : list (Z * string * store_op)) :
  counts_nonneg db →
  counts_nonneg (run_ops db sched)
  ∧ (∀ now key, 0 <= count_of now (run_ops db sched) key)
  ∧ (∀ now key e0,
       Redis.find now db key = None → value e0 = 0 → forward now sched →
       run_ops_results (<[key := e0]> db) sched = run_ops_results db sched).
Proof.
  intros Hinv. split; [by apply run_ops_nonneg|]. split.
  - intros now key. by apply count_of_nonneg, run_ops_nonneg.
  - intros now key e0 Hf Hz Hfwd. apply (run_ops_same_counts sched now); [|done].
    intros k. destruct (decide (k = key)) as [->|Hne].
    + right. rewrite lookup_insert_eq. split; [by left|].
      apply find_None in Hf as [->|(e & -> & Hd)]; [done | by right].
    + left. by rewrite lookup_insert_ne.
Qed.

Lemma counter_invariant_witness :
  counts_nonneg (run_ops ∅ [(0, "k", CheckAndCharge 1 5000); (10, "k", Refund);
                            (20, "k", Refund); (30, "k", CheckAndCharge 1 5000)])
  ∧ run_ops_results (<["k" := Entry 0 (Some 9000)]> ∅)
      [(0, "k", CheckAndCharge 1 5000); (10, "k", Refund);
       (20, "k", Refund); (30, "k", CheckAndCharge 1 5000)]
    = run_ops_results ∅
      [(0, "k", CheckAndCharge 1 5000); (10, "k", Refund);
       (20, "k", Refund); (30, "k", CheckAndCharge 1 5000)].
Proof.
  destruct (counter_invariant ∅
              [(0, "k", CheckAndCharge 1 5000); (10, "k", Refund);
               (20, "k", Refund); (30, "k", CheckAndCharge 1 5000)])
    as (Hinv & _ & Hsame).
  - intros k e. rewrite lookup_empty. discriminate.
  - split; [exact Hinv|].
    apply (Hsame 0 "k" (Entry 0 (Some 9000))).
    + reflexivity.
    + reflexivity.
    + simpl. lia.
Defined.

(** * Properties of the callers *)

(** ** Scope keys *)

Lemma pretty_N_go_no_colon (x : N) :
  ∀ s, no_colon s → no_colon (pretty_N_go x s).
Proof.
  induction (N.lt_wf_0 x) as [x _ IH]; intros s Hs.
  assert (x = 0 ∨ 0 < x)%N as [->|Hpos] by lia.
  - by rewrite pretty_N_go_0.
  - rewrite pretty_N_go_step by done. apply IH.
    + by apply N.div_lt.
    + split; [|done]. unfold pretty_N_char. by repeat case_match.
Qed.

Lemma pretty_nat_no_colon (n : nat) : no_colon (pretty n).
Proof.
  unfold pretty, pretty_nat, pretty, pretty_N.
  case_decide; [by split|]. by apply pretty_N_go_no_colon.
Qed.

Lemma colon_split (a : string) :
  ∀ b x y, no_colon a → no_colon b →
    a +:+ String ":" x = b +:+ String ":" y → a = b ∧ x = y.
Proof.
  induction a as [|c a IH]; intros [|d b] x y Ha Hb Heq; simpl in *.
  - by injection Heq.
  - injection Heq as Hc _. destruct Hb as [Hd _]. congruence.
  - injection Heq as Hc _. destruct Ha as [Hd _]. congruence.
  - injection Heq as -> Heq. destruct Ha as [_ Ha], Hb as [_ Hb].
    destruct (IH b x y Ha Hb Heq) as [-> ->]. done.
Qed.

(** For one prefix and one identifier, the key determines both indices. *)
Lemma http_key_inj (prefix : option string) (rate_key : string) (i1 j1 i2 j2 : nat) :
  http_key prefix rate_key i1 j1 = http_key prefix rate_key i2 j2 →
  i1 = i2 ∧ j1 = j2.
Proof.
  unfold http_key. intros Heq.
  do 4 apply (inj (String.app _)) in Heq.
  destruct (colon_split (pretty i1) (pretty i2) (pretty j1) (pretty j2)) as [Hi Hj];
    [apply pretty_nat_no_colon | apply pretty_nat_no_colon | exact Heq |].
  split; by apply (inj pretty).
Qed.

Lemma scan_routes_no_match (self_id : nat) (request : Request) (routes : list Route) :
  ∀ i route_index dep_index,
    (∀ n route, routes !! n = Some route → route_matches request route = false) →
    scan_routes self_id request routes i route_index dep_index
    = (route_index, dep_index).
Proof.
  induction routes as [|route routes IH]; intros i ri di Hno; [done|].
  simpl. rewrite (Hno 0%nat route) by done.
  apply IH. intros n route' Hn. by apply (Hno (S n)).
Qed.

Lemma scan_routes_unique (self_id : nat) (request : Request) (routes : list Route) :
  ∀ (n i route_index dep_index j : nat) (route : Route),
    routes !! n = Some route →
    route_matches request route = true →
    (∀ n' route', routes !! n' = Some route' →
       route_matches request route' = true → n' = n) →
    find_self self_id (dependencies route) 0 = Some j →
    scan_routes self_id request routes i route_index dep_index = ((i + n)%nat, j).
Proof.
  induction routes as [|r routes IH]; intros n i ri di j route Hn Hm Huniq Hj; [done|].
  destruct n as [|n]; simpl in *.
  - injection Hn as ->. rewrite Hm, Hj. simpl.
    rewrite scan_routes_no_match; [by rewrite Nat.add_0_r|].
    intros n route' Hn. destruct (route_matches request route') eqn:Hm'; [|done].
    by specialize (Huniq (S n) route' Hn Hm').
  - destruct (route_matches request r) eqn:Hr.
    + by specialize (Huniq 0%nat r eq_refl Hr).
    + assert (Hu : ∀ n' route', routes !! n' = Some route' →
                  route_matches request route' = true → n' = n).
      { intros n' route' Hn' Hm'. specialize (Huniq (S n') route' Hn' Hm'). lia. }
      rewrite (IH n (S i) ri di j route Hn Hm Hu Hj). f_equal. lia.
Qed.

(** A registered limiter derives the key of its own position. *)
Lemma key_registered (cfg : FastAPILimiter.t) (self : RateLimiter.t)
    (request : Request) (i j : nat) :
  registered_at request (RateLimiter.self_id self) i j →
  RateLimiter.key cfg self request =
    match call_identifier
            (or_else (RateLimiter.identifier self) (FastAPILimiter.identifier cfg))
            request with
    | Return rate_key => Return (http_key (FastAPILimiter.prefix cfg) rate_key i j)
    | Raise e => Raise e
    end.
Proof.
  intros (route & Hi & Hm & Huniq & Hj). unfold RateLimiter.key.
  by rewrite (scan_routes_unique _ _ _ i 0%nat 0%nat 0%nat j route).
Qed.

(** C9 (evaluation at the failing input).  The route
    [/items/{item_id}] carries two limiters and the request is
    [GET /items/5].  The route scan compares the path of the request with
    the path template of each route, so no route matches and both indices
    stay at their initial 0 for both limiters: the two limiters derive
    one and the same scope key and count on one record.  The first
    request to the endpoint, on an empty store, passes the first limiter
    (2 calls in 15 s) and is refused by the second (1 call in 5 s), which
    finds the count the first one has just stored. *)
Theorem templated_route_limiters_share_counter `{Hashlib} :
  scan_routes (RateLimiter.self_id main.items_1) main.items_request
    (app_routes main.items_request) 0 0 0 = (0%nat, 0%nat)
  ∧ scan_routes (RateLimiter.self_id main.items_2) main.items_request
      (app_routes main.items_request) 0 0 0 = (0%nat, 0%nat)
  ∧ RateLimiter.key main.cfg main.items_1 main.items_request
      = Return "fastapi-limiter:127.0.0.1:/items/5:0:0"
  ∧ RateLimiter.key main.cfg main.items_2 main.items_request
      = Return "fastapi-limiter:127.0.0.1:/items/5:0:0"
  ∧ fst (RateLimiter.__call__ main.cfg main.items_1 main.items_request main.started)
      = Return tt
  ∧ fst ((RateLimiter.__call__ main.cfg main.items_1 main.items_request ;;;
          RateLimiter.__call__ main.cfg main.items_2 main.items_request) main.started)
      = Raise (HTTPException 429 "Too Many Requests" [("Retry-After", "15")])
  ∧ fst (RateLimiter.__call__ main.cfg main.items_2 main.items_request main.started)
      = Return tt.
Proof. repeat split; vm_compute; reflexivity. Qed.

(** X29. Scope keys of resolved limiters are injective.  Take one
    identifier value, and two limiters, each registered in the one route
    whose path and methods its request matches, at positions [(i1, j1)]
    and [(i2, j2)].  If the limiter indices differ on one endpoint, or
    the endpoints differ, the two calls derive distinct scope keys, and
    an execution of either script on one of the keys leaves the record
    and the count of the other untouched. *)
Theorem scope_keys_injective (cfg : FastAPILimiter.t) (l1 l2 : RateLimiter.t)
    (request1 request2 : Request) (i1 j1 i2 j2 : nat)
    (identifier1 identifier2 : Request → string) :
  registered_at request1 (RateLimiter.self_id l1) i1 j1 →
  registered_at request2 (RateLimiter.self_id l2) i2 j2 →
  or_else (RateLimiter.identifier l1) (FastAPILimiter.identifier cfg)
    = Some identifier1 →
  or_else (RateLimiter.identifier l2) (FastAPILimiter.identifier cfg)
    = Some identifier2 →
  identifier1 request1 = identifier2 request2 →
  i1 ≠ i2 ∨ j1 ≠ j2 →
  ∃ k1 k2,
    RateLimiter.key cfg l1 request1 = Return k1
    ∧ RateLimiter.key cfg l2 request2 = Return k2
    ∧ k1 ≠ k2
    ∧ ∀ now db o,
        snd (run_op now db k1 o) !! k2 = db !! k2
        ∧ count_of now (snd (run_op now db k1 o)) k2 = count_of now db k2.
Proof.
  intros H1 H2 Hid1 Hid2 Hsame Hne.
  rewrite (key_registered cfg l1 request1 i1 j1 H1), Hid1.
  rewrite (key_registered cfg l2 request2 i2 j2 H2), Hid2. simpl.
  eexists _, _. split; [done|]. split; [done|].
  assert (Hk : http_key (FastAPILimiter.prefix cfg) (identifier1 request1) i1 j1
             ≠ http_key (FastAPILimiter.prefix cfg) (identifier2 request2) i2 j2).
  { rewrite Hsame. intros Heq. apply http_key_inj in Heq. lia. }
  split; [done|]. intros now db o.
  assert (Hl : snd (run_op now db
                 (http_key (FastAPILimiter.prefix cfg) (identifier1 request1) i1 j1) o)
               !! http_key (FastAPILimiter.prefix cfg) (identifier2 request2) i2 j2
             = db !! http_key (FastAPILimiter.prefix cfg) (identifier2 request2) i2 j2).
  { apply run_op_other. congruence. }
  split; [done|]. unfold count_of, Redis.GET, Redis.find. by rewrite Hl.
Qed.

Lemma main_init `{Hashlib} :
  FastAPILimiter.init (Some tt) "fastapi-limiter" (Some default_identifier)
    (Some http_default_callback) (Some ws_default_callback)
    (Some ["secrets_bypass_password"; "another_super_secret_bypass_password"])
    (Some ["password"; "special_param"]) (Some ["bearer"])
    (Some ["Api-Key"; "X-API-Key"]) main.fresh
  = (Return main.cfg, main.started).
Proof. reflexivity. Qed.

Lemma registered_multiple_1 :
  registered_at (main.request "GET" "/multiple" [] [])
    (RateLimiter.self_id main.multiple_1) 2 0.
Proof.
  exists {| path := "/multiple"; methods := ["GET"];
            dependencies := [main.Depends main.multiple_1;
                             main.Depends main.multiple_2] |}.
  split; [reflexivity|]. split; [by vm_compute|]. split; [|reflexivity].
  intros i' route' Hi' Hm.
  do 5 (destruct i' as [|i']; [injection Hi' as <-; by vm_compute in Hm |]).
  discriminate.
Qed.

Lemma registered_multiple_2 :
  registered_at (main.request "GET" "/multiple" [] [])
    (RateLimiter.self_id main.multiple_2) 2 1.
Proof.
  exists {| path := "/multiple"; methods := ["GET"];
            dependencies := [main.Depends main.multiple_1;
                             main.Depends main.multiple_2] |}.
  split; [reflexivity|]. split; [by vm_compute|]. split; [|reflexivity].
  intros i' route' Hi' Hm.
  do 5 (destruct i' as [|i']; [injection Hi' as <-; by vm_compute in Hm |]).
  discriminate.
Qed.

Lemma scope_keys_injective_witness :
  ∃ k1 k2,
    RateLimiter.key (@main.cfg main.tagging) main.multiple_1
      (main.request "GET" "/multiple" [] []) = Return k1
    ∧ RateLimiter.key (@main.cfg main.tagging) main.multiple_2
        (main.request "GET" "/multiple" [] []) = Return k2
    ∧ k1 ≠ k2
    ∧ ∀ now db o,
        snd (run_op now db k1 o) !! k2 = db !! k2
        ∧ count_of now (snd (run_op now db k1 o)) k2 = count_of now db k2.
Proof.
  apply (scope_keys_injective (@main.cfg main.tagging) main.multiple_1 main.multiple_2
           (main.request "GET" "/multiple" [] []) (main.request "GET" "/multiple" [] [])
           2 0 2 1 default_identifier default_identifier).
  - exact registered_multiple_1.
  - exact registered_multiple_2.
  - reflexivity.
  - reflexivity.
  - reflexivity.
  - right. lia.
Defined.

(** ** One served execution of the counter script *)

Lemma check_served (self : RateLimiter.t) (key : string) (w : World) :
  served w →
  ∃ w1,
    RateLimiter._check self key w
      = (as_result (fst (lua_script (clock w) (db w) key (RateLimiter.times self)
                           (RateLimiter.milliseconds self))), w1)
    ∧ db w1 = snd (lua_script (clock w) (db w) key (RateLimiter.times self)
                     (RateLimiter.milliseconds self))
    ∧ log w1 = (log w ++ [EvalSha (Some LimiterScript) key
                            [RateLimiter.times self; RateLimiter.milliseconds self]])%list
    ∧ script_cache w1 = script_cache w
    ∧ lua_sha w1 = lua_sha w
    ∧ clock w1 = clock w.
Proof.
  destruct w as [d cache t fs lg sha rsha]. unfold served. simpl.
  intros (Hfs & -> & Hc).
  unfold RateLimiter._check, bind, get_lua_sha, evalsha, bind, record, round_trip,
    cached, run_script. simpl.
  destruct Hfs as [->|[fs' ->]]; cbn; rewrite bool_decide_eq_true_2 by done; cbn;
    destruct (lua_script t d key (RateLimiter.times self)
                (RateLimiter.milliseconds self)) as [r d'];
    eexists; cbn; repeat split.
Qed.

(** ** The websocket limiter *)

(** C10. The websocket limiter never consults the bypass authenticator.
    For every message on an initialised limiter: the call is the same
    whatever [enable_bypass] says; it derives its scope key and asks the
    store to run the counter script on it; and when the store serves the
    command, the counter is charged exactly as the script says, the call
    returning normally when the script answers 0 (an error reply of the
    script reaches the caller as the exception [as_result] makes of
    it). *)
Theorem websocket_never_bypasses (cfg : FastAPILimiter.t) (self : RateLimiter.t)
    (ws : WebSocket) (context_key key : string) (w : World) :
  FastAPILimiter.redis cfg ≠ None →
  WebSocketRateLimiter.key cfg self ws context_key = Return key →
  (∀ b, WebSocketRateLimiter.__call__ cfg (with_enable_bypass b self) ws context_key w
        = WebSocketRateLimiter.__call__ cfg self ws context_key w)
  ∧ WebSocketRateLimiter.__call__ cfg self ws context_key w
    = (pexpire <~ RateLimiter._check self key ;;
       if bool_decide (pexpire ≠ 0)
       then call (or_else (RateLimiter.callback self) (FastAPILimiter.ws_callback cfg))
              ws pexpire
       else ret tt) w
  ∧ (served w →
     ∃ w1,
       RateLimiter._check self key w
         = (as_result (fst (lua_script (clock w) (db w) key (RateLimiter.times self)
                              (RateLimiter.milliseconds self))), w1)
       ∧ db w1 = snd (lua_script (clock w) (db w) key (RateLimiter.times self)
                        (RateLimiter.milliseconds self))
       ∧ evalsha_keys (log w1) = (evalsha_keys (log w) ++ [key])%list
       ∧ (fst (lua_script (clock w) (db w) key (RateLimiter.times self)
                 (RateLimiter.milliseconds self)) = IntegerReply 0 →
          WebSocketRateLimiter.__call__ cfg self ws context_key w = (Return tt, w1))).
Proof.
  intros Hredis Hkey.
  assert (Hcall : WebSocketRateLimiter.__call__ cfg self ws context_key w
    = (pexpire <~ RateLimiter._check self key ;;
       if bool_decide (pexpire ≠ 0)
       then call (or_else (RateLimiter.callback self) (FastAPILimiter.ws_callback cfg))
              ws pexpire
       else ret tt) w).
  { unfold WebSocketRateLimiter.__call__.
    destruct (FastAPILimiter.redis cfg); [|done].
    rewrite Hkey. reflexivity. }
  split; [|split; [exact Hcall|]].
  - intros b. reflexivity.
  - intros Hs. destruct (check_served self key w Hs) as (w1 & Hc & Hdb & Hlog & _).
    exists w1. split; [done|]. split; [done|]. split.
    + rewrite Hlog. clear. induction (log w) as [|[sc|sha k a] l IH]; simpl; congruence.
    + intros H0. rewrite Hcall. unfold bind at 1. rewrite Hc, H0. reflexivity.
Qed.

Lemma websocket_never_bypasses_witness :
  @RateLimiter.bypass main.tagging (@main.cfg main.tagging)
    (main.request "GET" "/ws" [] [("password", "secrets_bypass_password")])
    main.started = (Return true, main.started)
  ∧ ∃ w1,
      WebSocketRateLimiter.__call__ (@main.cfg main.tagging)
        (with_enable_bypass true main.ratelimit)
        (main.request "GET" "/ws" [] [("password", "secrets_bypass_password")])
        "hello" main.started = (Return tt, w1)
      ∧ count_of 0 (db w1) "fastapi-limiter:ws:127.0.0.1:/ws:hello" = 1.
Proof.
  split; [vm_compute; reflexivity|].
  destruct (websocket_never_bypasses (@main.cfg main.tagging)
              (with_enable_bypass true main.ratelimit)
              (main.request "GET" "/ws" [] [("password", "secrets_bypass_password")])
              "hello" "fastapi-limiter:ws:127.0.0.1:/ws:hello" main.started)
    as (_ & _ & Hs).
  - discriminate.
  - reflexivity.
  - destruct Hs as (w1 & _ & Hdb & _ & Hzero).
    + split; [by left|]. split; [reflexivity|]. by apply list_elem_of_here.
    + exists w1. split; [apply Hzero; vm_compute; reflexivity|].
      rewrite Hdb. vm_compute. reflexivity.
Defined.

(** ** Script eviction and store failures *)

(** X15. The HTTP path: when the store has dropped the script, the limiter
    loads it again and runs the same check a second time, once; what the
    script then answers is handled as after a first attempt. *)
Lemma http_reloads_and_retries_once (cfg : FastAPILimiter.t) (self : RateLimiter.t)
    (request : Request) (key : string) (w : World) :
  FastAPILimiter.redis cfg ≠ None →
  RateLimiter.key cfg self request = Return key →
  faults w = [] →
  lua_sha w = Some LimiterScript →
  LimiterScript ∉ script_cache w →
  ∃ w1,
    RateLimiter.account cfg self request w
      = (match fst (lua_script (clock w) (db w) key (RateLimiter.times self)
                      (RateLimiter.milliseconds self)) with
         | IntegerReply pexpire =>
             if bool_decide (pexpire ≠ 0)
             then call (or_else (RateLimiter.callback self)
                          (FastAPILimiter.http_callback cfg)) request pexpire
             else ret tt
         | ErrorReply => raise ResponseError
         end) w1
    ∧ db w1 = snd (lua_script (clock w) (db w) key (RateLimiter.times self)
                     (RateLimiter.milliseconds self))
    ∧ log w1 = (log w ++
                [EvalSha (Some LimiterScript) key
                   [RateLimiter.times self; RateLimiter.milliseconds self];
                 ScriptLoad LimiterScript;
                 EvalSha (Some LimiterScript) key
                   [RateLimiter.times self; RateLimiter.milliseconds self]])%list.
Proof.
  destruct w as [d cache t fs lg sha rsha]. simpl.
  intros Hredis Hkey -> -> Hc.
  unfold RateLimiter.account. destruct (FastAPILimiter.redis cfg); [|done].
  rewrite Hkey.
  unfold bind at 1. unfold lift at 1. unfold bind at 1.
  unfold try_except, RateLimiter._check, bind, get_lua_sha, evalsha, bind, record,
    round_trip, cached, run_script, script_load, cache_script, set_lua_sha, raise, ret.
  cbn.
  rewrite bool_decide_eq_false_2 by done. cbn.
  rewrite bool_decide_eq_true_2 by apply list_elem_of_here. cbn.
  destruct (lua_script t d key (RateLimiter.times self)
              (RateLimiter.milliseconds self)) as [[r|] d']; cbn.
  - eexists. split; [reflexivity|]. cbn. split; [reflexivity|].
    by rewrite <- !app_assoc.
  - eexists. split; [reflexivity|]. cbn. split; [reflexivity|].
    by rewrite <- !app_assoc.
Qed.

(** X16. The HTTP path: any other failure of the store comes out as it is,
    with no reload and no second attempt. *)
Lemma http_store_failure_propagates (cfg : FastAPILimiter.t) (self : RateLimiter.t)
    (request : Request) (key : string) (w : World) (fs : list fault) :
  FastAPILimiter.redis cfg ≠ None →
  RateLimiter.key cfg self request = Return key →
  faults w = Unreachable :: fs →
  ∃ w1,
    RateLimiter.account cfg self request w = (Raise RedisError, w1)
    ∧ db w1 = db w
    ∧ log w1 = (log w ++ [EvalSha (lua_sha w) key
                            [RateLimiter.times self; RateLimiter.milliseconds self]])%list.
Proof.
  destruct w as [d cache t fs0 lg sha rsha]. simpl.
  intros Hredis Hkey ->.
  unfold RateLimiter.account. destruct (FastAPILimiter.redis cfg); [|done].
  rewrite Hkey. eexists. cbn. repeat split.
Qed.

(** The websocket path has no such handler: the first script-not-found
    answer ends the call. *)
Lemma websocket_no_reload (cfg : FastAPILimiter.t) (self : RateLimiter.t)
    (ws : WebSocket) (context_key key : string) (w : World) :
  FastAPILimiter.redis cfg ≠ None →
  WebSocketRateLimiter.key cfg self ws context_key = Return key →
  faults w = [] →
  lua_sha w = Some LimiterScript →
  LimiterScript ∉ script_cache w →
  ∃ w1,
    WebSocketRateLimiter.__call__ cfg self ws context_key w = (Raise NoScriptError, w1)
    ∧ db w1 = db w
    ∧ log w1 = (log w ++ [EvalSha (Some LimiterScript) key
                            [RateLimiter.times self; RateLimiter.milliseconds self]])%list.
Proof.
  destruct w as [d cache t fs lg sha rsha]. simpl.
  intros Hredis Hkey -> -> Hc.
  unfold WebSocketRateLimiter.__call__. destruct (FastAPILimiter.redis cfg); [|done].
  rewrite Hkey.
  unfold bind at 1. unfold lift at 1. unfold bind at 1.
  unfold RateLimiter._check, bind, get_lua_sha, evalsha, bind, record,
    round_trip, cached, raise, ret. cbn.
  rewrite bool_decide_eq_false_2 by done.
  eexists. repeat split.
Qed.

(** C6 (evaluation at the failing input). The store has dropped the
    counter script.  A websocket message gets the script-not-found error
    after a single attempt and no reload; the same situation on the HTTP
    path is repaired by one reload and one second attempt. *)
Theorem websocket_script_eviction_not_retried `{Hashlib} :
  fst (WebSocketRateLimiter.__call__ main.cfg main.ratelimit
         (main.request "GET" "/ws" [] []) "hello" main.evicted)
    = Raise NoScriptError
  ∧ log (snd (WebSocketRateLimiter.__call__ main.cfg main.ratelimit
                (main.request "GET" "/ws" [] []) "hello" main.evicted))
    = [ScriptLoad LimiterScript;
       EvalSha (Some LimiterScript) "fastapi-limiter:ws:127.0.0.1:/ws:hello" [1; 5000]]
  ∧ fst (RateLimiter.__call__ main.cfg main.index_get
           (main.request "GET" "/" [] []) main.evicted)
    = Return tt
  ∧ log (snd (RateLimiter.__call__ main.cfg main.index_get
                (main.request "GET" "/" [] []) main.evicted))
    = [ScriptLoad LimiterScript;
       EvalSha (Some LimiterScript) "fastapi-limiter:127.0.0.1:/:0:0" [2; 5000];
       ScriptLoad LimiterScript;
       EvalSha (Some LimiterScript) "fastapi-limiter:127.0.0.1:/:0:0" [2; 5000]].
Proof. repeat split; vm_compute; reflexivity. Qed.

(** The HTTP path gives up after the second attempt. *)
Example http_retry_failure_propagates `{Hashlib} :
  fst (RateLimiter.__call__ main.cfg main.index_get (main.request "GET" "/" [] [])
         (with_faults [Reachable; Reachable; Unreachable] [] main.evicted))
    = Raise RedisError
  ∧ script_loads
      (log (snd (RateLimiter.__call__ main.cfg main.index_get
                   (main.request "GET" "/" [] [])
                   (with_faults [Reachable; Reachable; Unreachable] [] main.evicted))))
    = 2%nat.
Proof. split; vm_compute; reflexivity. Qed.

(** The refund path catches every exception of its first attempt, not
    only script-not-found: here the store is unreachable for the first
    [evalsha], and the refund still goes through on the second. *)
Example refund_retries_after_any_failure `{Hashlib} :
  fst (refund_rate_limit_for_request main.cfg (main.request "GET" "/" [] [])
         (with_faults [Reachable; Unreachable] [LimiterScript]
            (snd (RateLimiter.__call__ main.cfg main.index_get
                    (main.request "GET" "/" [] []) main.started))))
    = Return tt
  ∧ evalsha_keys
      (log (snd (refund_rate_limit_for_request main.cfg (main.request "GET" "/" [] [])
                   (with_faults [Reachable; Unreachable] [LimiterScript]
                      (snd (RateLimiter.__call__ main.cfg main.index_get
                              (main.request "GET" "/" [] []) main.started))))))
    = ["fastapi-limiter:127.0.0.1:/:0:0"; "fastapi-limiter:127.0.0.1:/:0:0";
       "fastapi-limiter:127.0.0.1:/:0:0"]
  ∧ count_of 0
      (db (snd (refund_rate_limit_for_request main.cfg (main.request "GET" "/" [] [])
                  (with_faults [Reachable; Unreachable] [LimiterScript]
                     (snd (RateLimiter.__call__ main.cfg main.index_get
                             (main.request "GET" "/" [] []) main.started))))))
      "fastapi-limiter:127.0.0.1:/:0:0" = 0.
Proof. repeat split; vm_compute; reflexivity. Qed.

(** ** The refund and the key of the charge *)

Lemma string_length_app (a b : string) :
  String.length (a +:+ b) = (String.length a + String.length b)%nat.
Proof. induction a as [|c a IH]; simpl; [done | by rewrite IH]. Qed.

Lemma string_app_inj_r (s : string) : ∀ a b, a +:+ s = b +:+ s → a = b.
Proof.
  assert (Hnil : ∀ x, "" +:+ x = x) by done.
  assert (Hcons : ∀ c x y, String c x +:+ y = String c (x +:+ y)) by done.
  induction a as [|c a IH]; intros [|d b] Heq.
  - done.
  - apply (f_equal String.length) in Heq.
    rewrite Hnil, Hcons in Heq. simpl in Heq.
    rewrite (string_length_app b s) in Heq. lia.
  - apply (f_equal String.length) in Heq.
    rewrite Hnil, Hcons in Heq. simpl in Heq.
    rewrite (string_length_app a s) in Heq. lia.
  - rewrite !Hcons in Heq. injection Heq as -> Heq. by rewrite (IH b Heq).
Qed.

Lemma http_key_inj_rate_key (prefix : option string) (rk1 rk2 : string) (i j : nat) :
  http_key prefix rk1 i j = http_key prefix rk2 i j → rk1 = rk2.
Proof.
  unfold http_key. intros Heq. do 2 apply (inj (String.app _)) in Heq.
  by apply string_app_inj_r in Heq.
Qed.

(** X25. Without an identifier of its own, a registered limiter is refunded on
    the key it was charged on. *)
Lemma refund_key_without_override (cfg : FastAPILimiter.t) (self : RateLimiter.t)
    (request : Request) (i j : nat) :
  registered_at request (RateLimiter.self_id self) i j →
  RateLimiter.identifier self = None →
  refund_key cfg request i j = RateLimiter.key cfg self request.
Proof.
  intros Hreg Hnone. rewrite (key_registered cfg self request i j Hreg), Hnone.
  reflexivity.
Qed.

(** With an identifier of its own, it is not: the refund reads the
    process-wide identifier only. *)
Lemma refund_key_ignores_override (cfg : FastAPILimiter.t) (self : RateLimiter.t)
    (request : Request) (i j : nat) (own shared : Request → string) :
  registered_at request (RateLimiter.self_id self) i j →
  RateLimiter.identifier self = Some own →
  FastAPILimiter.identifier cfg = Some shared →
  own request ≠ shared request →
  ∃ k k',
    RateLimiter.key cfg self request = Return k
    ∧ refund_key cfg request i j = Return k'
    ∧ k ≠ k'.
Proof.
  intros Hreg Hown Hshared Hne.
  rewrite (key_registered cfg self request i j Hreg), Hown.
  unfold refund_key. rewrite Hshared. simpl.
  eexists _, _. split; [done|]. split; [done|].
  intros Heq. by apply http_key_inj_rate_key in Heq.
Qed.

Lemma refund_dependencies_none (cfg : FastAPILimiter.t) (request : Request)
    (route_index : nat) (deps : list Dependency) :
  ∀ j w,
    Forall (λ d, dependency_class d ≠ "RateLimiter") deps →
    refund_dependencies cfg request route_index deps j w = (Return tt, w).
Proof.
  induction deps as [|d deps IH]; intros j w Hall; [done|].
  apply Forall_cons in Hall as [Hd Hall]. simpl.
  rewrite bool_decide_eq_false_2 by done.
  unfold bind, ret. simpl. by apply IH.
Qed.

(** X21. A refund that resolves no registered limiter (no route matches the
    request, or the matching route carries no [RateLimiter]) sends
    nothing to the store and raises nothing. *)
Lemma refund_unresolved_noop (cfg : FastAPILimiter.t) (request : Request) (w : World) :
  (∀ n route, app_routes request !! n = Some route →
     route_matches request route = true →
     Forall (λ d, dependency_class d ≠ "RateLimiter") (dependencies route)) →
  refund_rate_limit_for_request cfg request w = (Return tt, w).
Proof.
  unfold refund_rate_limit_for_request.
  destruct (FastAPILimiter.redis cfg); [|done].
  generalize 0%nat. induction (app_routes request) as [|route routes IH];
    intros i Hno; [done|].
  simpl. destruct (route_matches request route) eqn:Hm.
  - apply refund_dependencies_none. by apply (Hno 0%nat route).
  - apply IH. intros n route' Hn. by apply (Hno (S n)).
Qed.

(** C4 (evaluation at the failing input). The limiter of [GET /] counts
    per user through its own identifier.  The request of user alice is
    charged on [fastapi-limiter:alice:0:0]; the refund for the same
    request runs on [fastapi-limiter:127.0.0.1:/:0:0], and the count
    charged to alice stays 1. *)
Theorem refund_misses_overridden_identifier `{Hashlib} :
  RateLimiter.key main.cfg main.index_get_per_user
    (main.request "GET" "/" [("x-user", "alice")] [])
    = Return "fastapi-limiter:alice:0:0"
  ∧ refund_key main.cfg (main.request "GET" "/" [("x-user", "alice")] []) 0 0
    = Return "fastapi-limiter:127.0.0.1:/:0:0"
  ∧ fst (RateLimiter.__call__ main.cfg main.index_get_per_user
           (main.request "GET" "/" [("x-user", "alice")] []) main.started)
    = Return tt
  ∧ fst (refund_rate_limit_for_request main.cfg
           (main.request "GET" "/" [("x-user", "alice")] [])
           (snd (RateLimiter.__call__ main.cfg main.index_get_per_user
                   (main.request "GET" "/" [("x-user", "alice")] []) main.started)))
    = Return tt
  ∧ evalsha_keys
      (log (snd (refund_rate_limit_for_request main.cfg
                   (main.request "GET" "/" [("x-user", "alice")] [])
                   (snd (RateLimiter.__call__ main.cfg main.index_get_per_user
                           (main.request "GET" "/" [("x-user", "alice")] [])
                           main.started)))))
    = ["fastapi-limiter:alice:0:0"; "fastapi-limiter:127.0.0.1:/:0:0"]
  ∧ count_of 0
      (db (snd (refund_rate_limit_for_request main.cfg
                  (main.request "GET" "/" [("x-user", "alice")] [])
                  (snd (RateLimiter.__call__ main.cfg main.index_get_per_user
                          (main.request "GET" "/" [("x-user", "alice")] [])
                          main.started)))))
      "fastapi-limiter:alice:0:0" = 1.
Proof. repeat split; vm_compute; reflexivity. Qed.

(** ** The bypass *)

Section bypass.
Context `{Hashlib}.

Lemma bypass_loop_spec (cfg : FastAPILimiter.t) (lookup : string → string)
    (passwords names : list string) (w : World) :
  FastAPILimiter.authorized_passwords cfg = Some passwords →
  RateLimiter.bypass_loop cfg lookup names w
  = (Return (existsb (λ name, existsb (compare_digest (hash_input (lookup name)))
                                passwords) names), w).
Proof.
  intros Hpw. induction names as [|name names IH]; [done|].
  simpl. unfold bind at 1. rewrite Hpw. simpl.
  destruct (existsb _ passwords); [done|]. exact IH.
Qed.

(** The three loops as one test: every configured query parameter is
    read under its name, every api-key header under its name, and every
    bearer header under its name followed by a space. *)
Lemma bypass_spec (cfg : FastAPILimiter.t) (request : Request)
    (passwords params bearers api_keys : list string) (w : World) :
  FastAPILimiter.authorized_passwords cfg = Some passwords →
  FastAPILimiter.query_param_names cfg = Some params →
  FastAPILimiter.bearer_token_headers cfg = Some bearers →
  FastAPILimiter.api_key_headers cfg = Some api_keys →
  RateLimiter.bypass cfg request w
  = (Return
       (existsb (λ param,
           existsb (compare_digest
                      (hash_input (query_get (query_params request) param "")))
             passwords) params
        || existsb (λ header,
             existsb (compare_digest
                        (hash_input (headers_get_default (headers request) (header +:+ " ") "")))
               passwords) bearers
        || existsb (λ header,
             existsb (compare_digest
                        (hash_input (headers_get_default (headers request) header "")))
               passwords) api_keys), w).
Proof.
  intros Hpw Hq Hb Ha. unfold RateLimiter.bypass.
  rewrite Hq, Hb, Ha. unfold attr.
  unfold bind at 1. unfold ret at 1.
  unfold bind at 1. rewrite (bypass_loop_spec cfg _ passwords params w Hpw).
  destruct (existsb _ params); [done|]. simpl.
  unfold bind at 1. unfold ret at 1.
  unfold bind at 1. rewrite (bypass_loop_spec cfg _ passwords bearers w Hpw).
  destruct (existsb _ bearers); [done|]. simpl.
  unfold bind at 1. unfold ret at 1.
  by rewrite (bypass_loop_spec cfg _ passwords api_keys w Hpw).
Qed.

(** A match returns at once: no command reaches the store and the
    process is left as it was. *)
Lemma bypass_hit_no_charge (cfg : FastAPILimiter.t) (self : RateLimiter.t)
    (request : Request) (w : World) :
  RateLimiter.enable_bypass self = true →
  RateLimiter.bypass cfg request w = (Return true, w) →
  RateLimiter.__call__ cfg self request w = (Return tt, w).
Proof.
  intros Hen Hhit. unfold RateLimiter.__call__. rewrite Hen.
  unfold bind. by rewrite Hhit.
Qed.

(** No match: the call goes on to the accounting. *)
Lemma bypass_miss_accounts (cfg : FastAPILimiter.t) (self : RateLimiter.t)
    (request : Request) (w : World) :
  RateLimiter.bypass cfg request w = (Return false, w) →
  RateLimiter.__call__ cfg self request w = RateLimiter.account cfg self request w.
Proof.
  intros Hmiss. unfold RateLimiter.__call__.
  destruct (RateLimiter.enable_bypass self); unfold bind; [by rewrite Hmiss | done].
Qed.

Lemma existsb_hit {A} (f : A → bool) (l : list A) (x : A) :
  x ∈ l → f x = true → existsb f l = true.
Proof.
  intros Hx Hf. apply existsb_exists. exists x. split; [|done].
  by apply list_elem_of_In.
Qed.

(** A query parameter or an api-key header that carries an authorized
    secret under a configured name is a match. *)
Lemma bypass_by_query_param (cfg : FastAPILimiter.t) (request : Request)
    (passwords params bearers api_keys : list string) (param : string) (w : World) :
  FastAPILimiter.authorized_passwords cfg = Some passwords →
  FastAPILimiter.query_param_names cfg = Some params →
  FastAPILimiter.bearer_token_headers cfg = Some bearers →
  FastAPILimiter.api_key_headers cfg = Some api_keys →
  param ∈ params →
  hash_input (query_get (query_params request) param "") ∈ passwords →
  RateLimiter.bypass cfg request w = (Return true, w).
Proof.
  intros Hpw Hq Hb Ha Hparam Hin.
  rewrite (bypass_spec cfg request passwords params bearers api_keys w) by done.
  rewrite (existsb_hit _ params param); [done | done |].
  apply (existsb_hit _ _ _ Hin). by apply bool_decide_eq_true.
Qed.

Lemma bypass_by_api_key (cfg : FastAPILimiter.t) (request : Request)
    (passwords params bearers api_keys : list string) (header : string) (w : World) :
  FastAPILimiter.authorized_passwords cfg = Some passwords →
  FastAPILimiter.query_param_names cfg = Some params →
  FastAPILimiter.bearer_token_headers cfg = Some bearers →
  FastAPILimiter.api_key_headers cfg = Some api_keys →
  header ∈ api_keys →
  hash_input (headers_get_default (headers request) header "") ∈ passwords →
  RateLimiter.bypass cfg request w = (Return true, w).
Proof.
  intros Hpw Hq Hb Ha Hheader Hin.
  rewrite (bypass_spec cfg request passwords params bearers api_keys w) by done.
  rewrite (existsb_hit _ api_keys header); [by rewrite !orb_true_r | done |].
  apply (existsb_hit _ _ _ Hin). by apply bool_decide_eq_true.
Qed.

(** C3 (evaluation at the failing input). [bearer] is a configured
    bearer-token header and the request carries an authorized secret in
    it.  The value stored under that name is not what the limiter
    hashes: it reads the name followed by a space, finds nothing, hashes
    the empty string, and goes on to charge the counter. *)
Theorem bearer_header_value_not_read (w : World) :
  sha256_hexdigest "" ≠ sha256_hexdigest "secrets_bypass_password" →
  sha256_hexdigest "" ≠ sha256_hexdigest "another_super_secret_bypass_password" →
  headers_get_default [("bearer", "secrets_bypass_password")] "bearer" ""
    = "secrets_bypass_password"
  ∧ RateLimiter.bypass main.cfg
      (main.request "GET" "/bypass_bearer" [("bearer", "secrets_bypass_password")] [])
      w = (Return false, w)
  ∧ RateLimiter.__call__ main.cfg main.bypass_bearer
      (main.request "GET" "/bypass_bearer" [("bearer", "secrets_bypass_password")] [])
      w
    = RateLimiter.account main.cfg main.bypass_bearer
        (main.request "GET" "/bypass_bearer" [("bearer", "secrets_bypass_password")] [])
        w
  ∧ count_of 0
      (db (snd (RateLimiter.account main.cfg main.bypass_bearer
                  (main.request "GET" "/bypass_bearer"
                     [("bearer", "secrets_bypass_password")] [])
                  main.started)))
      "fastapi-limiter:127.0.0.1:/bypass_bearer:3:0" = 1.
Proof.
  intros H1 H2.
  assert (Hmiss : RateLimiter.bypass main.cfg
      (main.request "GET" "/bypass_bearer" [("bearer", "secrets_bypass_password")] [])
      w = (Return false, w)).
  { rewrite (bypass_spec main.cfg _
               [hash_password "secrets_bypass_password";
                hash_password "another_super_secret_bypass_password"]
               ["password"; "special_param"] ["bearer"] ["Api-Key"; "X-API-Key"] w)
      by reflexivity.
    change (query_get _ "password" "") with "".
    change (query_get _ "special_param" "") with "".
    change (headers_get_default _ ("bearer" +:+ " ") "") with "".
    change (headers_get_default _ "Api-Key" "") with "".
    change (headers_get_default _ "X-API-Key" "") with "".
    unfold existsb, compare_digest, hash_input, hash_password.
    rewrite !(bool_decide_eq_false_2 _ H1), !(bool_decide_eq_false_2 _ H2).
    reflexivity. }
  split; [reflexivity|]. split; [exact Hmiss|]. split.
  - by apply bypass_miss_accounts.
  - vm_compute. reflexivity.
Qed.

End bypass.

Lemma bearer_header_value_not_read_witness :
  @RateLimiter.bypass main.tagging (@main.cfg main.tagging)
    (main.request "GET" "/bypass_bearer" [("bearer", "secrets_bypass_password")] [])
    main.started = (Return false, main.started).
Proof.
  destruct (@bearer_header_value_not_read main.tagging main.started) as (_ & Hmiss & _).
  - vm_compute. discriminate.
  - vm_compute. discriminate.
  - exact Hmiss.
Defined.

(** The sibling sources do what the bearer source misses: the secret sent
    as the query parameter [password] or as the header [Api-Key] returns
    before any accounting. *)
Example bypass_query_and_api_key :
  @RateLimiter.__call__ main.tagging (@main.cfg main.tagging) main.bypass_query_params
    (main.request "GET" "/bypass_query_params" []
       [("password", "secrets_bypass_password")]) main.started
    = (Return tt, main.started)
  ∧ @RateLimiter.__call__ main.tagging (@main.cfg main.tagging) main.bypass_bearer
      (main.request "GET" "/bypass_bearer" [("api-key", "secrets_bypass_password")] [])
      main.started
    = (Return tt, main.started).
Proof. split; vm_compute; reflexivity. Qed.

(** A second way for the two keys to part: when two routes match the
    request, the charge keeps the index of the last one and the refund
    stops at the first. *)
Example refund_first_match_charge_last_match `{Hashlib} :
  RateLimiter.key main.cfg main.index_get
    {| app_routes :=
         [ {| path := "/"; methods := ["GET"];
              dependencies := [main.Depends main.index_get] |};
           {| path := "/"; methods := ["GET"; "HEAD"]; dependencies := [] |} ];
       scope_path := "/"; method := "GET"; headers := []; query_params := [];
       client_host := "127.0.0.1" |}
    = Return "fastapi-limiter:127.0.0.1:/:1:0"
  ∧ evalsha_keys
      (log (snd (refund_rate_limit_for_request main.cfg
                   {| app_routes :=
                        [ {| path := "/"; methods := ["GET"];
                             dependencies := [main.Depends main.index_get] |};
                          {| path := "/"; methods := ["GET"; "HEAD"];
                             dependencies := [] |} ];
                      scope_path := "/"; method := "GET"; headers := [];
                      query_params := []; client_host := "127.0.0.1" |}
                   main.started)))
    = ["fastapi-limiter:127.0.0.1:/:0:0"].
Proof. split; vm_compute; reflexivity. Qed.

(** * The scenarios of the specification, run on the example application *)

Example lower_header_name : lower "X-Forwarded-For" = "x-forwarded-for".
Proof. reflexivity. Qed.

Example default_identifier_forwarded :
  default_identifier
    (main.request "GET" "/" [("x-forwarded-for", "10.0.0.1, 10.0.0.2")] [])
  = "10.0.0.1:/".
Proof. reflexivity. Qed.

Example default_identifier_direct :
  default_identifier (main.request "GET" "/multiple" [] []) = "127.0.0.1:/multiple".
Proof. reflexivity. Qed.

(** [limit=2, window=5000ms]: three calls give two normal returns and a
    429 with [Retry-After: 5]. *)
Example three_requests `{Hashlib} :
  (RateLimiter.__call__ main.cfg main.index_get (main.request "GET" "/" [] []) ;;;
   RateLimiter.__call__ main.cfg main.index_get (main.request "GET" "/" [] []))
    main.started
  = (Return tt,
     {| db := {[ "fastapi-limiter:127.0.0.1:/:0:0" := Entry 2 (Some 5000) ]};
        script_cache := [LimiterScript]; clock := 0; faults := [];
        log := [ScriptLoad LimiterScript;
                EvalSha (Some LimiterScript) "fastapi-limiter:127.0.0.1:/:0:0" [2; 5000];
                EvalSha (Some LimiterScript) "fastapi-limiter:127.0.0.1:/:0:0" [2; 5000]];
        lua_sha := Some LimiterScript; _refund_script_sha := None |})
  ∧ fst ((RateLimiter.__call__ main.cfg main.index_get (main.request "GET" "/" [] []) ;;;
          RateLimiter.__call__ main.cfg main.index_get (main.request "GET" "/" [] []) ;;;
          RateLimiter.__call__ main.cfg main.index_get (main.request "GET" "/" [] []))
           main.started)
    = Raise (HTTPException 429 "Too Many Requests" [("Retry-After", "5")]).
Proof. split; vm_compute; reflexivity. Qed.

(** Socket, [limit=1]: two messages with one context key give a normal
    return and a denial. *)
Example two_messages `{Hashlib} :
  fst (WebSocketRateLimiter.__call__ main.cfg main.ratelimit
         (main.request "GET" "/ws" [] []) "hello" main.started)
    = Return tt
  ∧ fst ((WebSocketRateLimiter.__call__ main.cfg main.ratelimit
            (main.request "GET" "/ws" [] []) "hello" ;;;
          WebSocketRateLimiter.__call__ main.cfg main.ratelimit
            (main.request "GET" "/ws" [] []) "hello") main.started)
    = Raise (HTTPException 429 "Too Many Requests" [("Retry-After", "5")]).
Proof. split; vm_compute; reflexivity. Qed.

(** One charge, one refund: the count is back to 0 and the next call is
    the first of a new cycle. *)
Example charge_then_refund `{Hashlib} :
  count_of 0
    (db (snd ((RateLimiter.__call__ main.cfg main.index_post
                 (main.request "POST" "/" [] []) ;;;
               refund_rate_limit_for_request main.cfg (main.request "POST" "/" [] []))
                main.started)))
    "fastapi-limiter:127.0.0.1:/:1:0" = 0
  ∧ fst ((RateLimiter.__call__ main.cfg main.index_post
            (main.request "POST" "/" [] []) ;;;
          refund_rate_limit_for_request main.cfg (main.request "POST" "/" [] []) ;;;
          RateLimiter.__call__ main.cfg main.index_post
            (main.request "POST" "/" [] [])) main.started)
    = Return tt.
Proof. split; vm_compute; reflexivity. Qed.

(** * Further properties of the scripts *)

(** At the very millisecond of its deadline a record is still there and
    its time-to-live is 0: a call over the limit is answered 0 and
    counts nothing. *)
Example call_at_the_deadline :
  lua_script 5000 {[ "k" := Entry 2 (Some 5000) ]} "k" 2 5000
    = (IntegerReply 0, {[ "k" := Entry 2 (Some 5000) ]}).
Proof. vm_compute. reflexivity. Qed.

(** X1. Once the deadline of a record has passed, the next call with a
    window above 0 answers 0 and opens a new window, whatever count the
    record held. *)
Theorem window_restarts_after_expiry (now : Z) (db : gmap string entry) (key : string)
    (limit window : Z) (e : entry) (deadline : Z) :
  db !! key = Some e →
  expire_at e = Some deadline →
  deadline < now →
  0 < window →
  lua_script now db key limit window
    = (IntegerReply 0, <[key := Entry 1 (Some (now + window))]> db).
Proof.
  intros Hk Hd Hle HW. apply lua_script_fresh; [|done].
  rewrite count_of_absent; [lia|].
  apply find_None. right. exists e. split; [done|].
  unfold Redis.live. rewrite Hd. apply bool_decide_eq_false. lia.
Qed.

Lemma window_restarts_after_expiry_witness :
  lua_script 6000 {[ "k" := Entry 2 (Some 5000) ]} "k" 2 5000
    = (IntegerReply 0,
       <["k" := Entry 1 (Some (6000 + 5000))]> {[ "k" := Entry 2 (Some 5000) ]}).
Proof.
  apply (window_restarts_after_expiry 6000 _ "k" 2 5000 (Entry 2 (Some 5000)) 5000).
  - reflexivity.
  - reflexivity.
  - lia.
  - lia.
Defined.

Lemma run_checks_record (key : string) (limit window t0 : Z) (ts : list Z) :
  ∀ (db : gmap string entry) (c : Z),
    db !! key = Some (Entry c (Some (t0 + window))) →
    1 <= c <= limit →
    Forall (λ t, t0 <= t < t0 + window) ts →
    snd (run_checks db key limit window ts) !! key
      = Some (Entry (Z.min (c + Z.of_nat (length ts)) limit) (Some (t0 + window))).
Proof.
  induction ts as [|t ts IH]; intros db c Hdb Hc Hts.
  - simpl. rewrite Hdb. do 2 f_equal. lia.
  - apply Forall_cons in Hts as [Ht Hts].
    assert (Hf : Redis.find t db key = Some (Entry c (Some (t0 + window)))).
    { apply find_Some. split; [done|]. simpl. apply bool_decide_eq_true. lia. }
    cbn [run_checks].
    destruct (decide (c + 1 > limit)) as [Hgt|Hle].
    + rewrite (lua_script_deny _ _ _ _ _ _ Hf) by (simpl; lia).
      destruct (run_checks db key limit window ts) as [rs db2] eqn:Hrun.
      specialize (IH db c Hdb Hc Hts). rewrite Hrun in IH. simpl in *.
      rewrite IH. do 2 f_equal. lia.
    + rewrite (lua_script_increment _ _ _ _ _ _ Hf) by (simpl; lia). simpl.
      set (db1 := <[key := Entry (c + 1) (Some (t0 + window))]> db).
      destruct (run_checks db1 key limit window ts) as [rs db2] eqn:Hrun.
      assert (IH' := IH db1 (c + 1)). rewrite Hrun in IH'. simpl in *.
      rewrite IH'; [do 2 f_equal; lia | apply lookup_insert_eq | lia | done].
Qed.

(** X2. Inside one window (limit at least 1, window above 0) the stored
    count is the number of calls capped at the limit, and the deadline
    stays where the first call put it: later calls, allowed or denied,
    never move it. *)
Theorem count_capped_in_window (db : gmap string entry) (key : string)
    (L W t0 : Z) (ts : list Z) :
  1 <= L →
  0 < W →
  Redis.GET t0 db key = None →
  Forall (λ t, t0 <= t < t0 + W) ts →
  snd (run_checks db key L W (t0 :: ts)) !! key
    = Some (Entry (Z.min (1 + Z.of_nat (length ts)) L) (Some (t0 + W))).
Proof.
  intros HL HW Habs Hts. cbn [run_checks].
  rewrite lua_script_fresh by (done || unfold count_of; rewrite Habs; simpl; lia).
  set (db1 := <[key := Entry 1 (Some (t0 + W))]> db).
  destruct (run_checks db1 key L W ts) as [rs db2] eqn:Hrun.
  assert (H := run_checks_record key L W t0 ts db1 1). rewrite Hrun in H.
  simpl in *. apply H; [apply lookup_insert_eq | lia | done].
Qed.

Lemma count_capped_in_window_witness :
  snd (run_checks ∅ "k" 2 5000 [0; 10; 20; 30]) !! "k"
    = Some (Entry (Z.min (1 + Z.of_nat (length [10; 20; 30])) 2) (Some (0 + 5000))).
Proof.
  apply (count_capped_in_window ∅ "k" 2 5000 0 [10; 20; 30]).
  - lia.
  - lia.
  - reflexivity.
  - repeat constructor; lia.
Defined.

(** X3. Two denials on one record: the second answer is the first minus the
    time that went by, and still above 0 before the deadline. *)
Theorem denial_counts_down (db : gmap string entry) (key : string)
    (limit window t1 t2 deadline : Z) (e : entry) :
  db !! key = Some e →
  expire_at e = Some deadline →
  value e > 0 →
  value e + 1 > limit →
  t1 <= t2 < deadline →
  ∃ r1 r2,
    fst (lua_script t1 db key limit window) = IntegerReply r1
    ∧ fst (lua_script t2 db key limit window) = IntegerReply r2
    ∧ r2 = r1 - (t2 - t1)
    ∧ 0 < r2
    ∧ snd (lua_script t2 (snd (lua_script t1 db key limit window)) key limit window)
      = db.
Proof.
  intros Hk Hd Hpos Hgt Ht.
  assert (Hf : ∀ t, t < deadline → Redis.find t db key = Some e).
  { intros t Hlt. apply find_Some. split; [done|].
    unfold Redis.live. rewrite Hd. apply bool_decide_eq_true. lia. }
  rewrite (lua_script_deny t1 _ _ _ _ e) by (auto with lia). cbn [snd].
  rewrite (lua_script_deny t2 _ _ _ _ e) by (auto with lia).
  rewrite Hd. simpl. eexists _, _. repeat split; lia.
Qed.

Lemma denial_counts_down_witness :
  ∃ r1 r2,
    fst (lua_script 300 {[ "k" := Entry 2 (Some 5000) ]} "k" 2 5000) = IntegerReply r1
    ∧ fst (lua_script 900 {[ "k" := Entry 2 (Some 5000) ]} "k" 2 5000) = IntegerReply r2
    ∧ r2 = r1 - (900 - 300)
    ∧ 0 < r2
    ∧ snd (lua_script 900
             (snd (lua_script 300 {[ "k" := Entry 2 (Some 5000) ]} "k" 2 5000))
             "k" 2 5000)
      = {[ "k" := Entry 2 (Some 5000) ]}.
Proof.
  apply (denial_counts_down _ "k" 2 5000 300 900 5000 (Entry 2 (Some 5000))).
  - reflexivity.
  - reflexivity.
  - simpl. lia.
  - simpl. lia.
  - lia.
Defined.

Lemma refund_count (now : Z) (db : gmap string entry) (key : string) :
  0 <= count_of now db key →
  count_of now (snd (_refund_script now db key)) key
    = Z.max 0 (count_of now db key - 1).
Proof.
  intros Hc. destruct (decide (count_of now db key > 0)) as [Hgt|Hle].
  - destruct (Redis.find now db key) as [e|] eqn:Hf;
      [|rewrite (count_of_absent _ _ _ Hf) in Hgt; lia].
    rewrite (count_of_find _ _ _ _ Hf) in *.
    rewrite (refund_script_decr _ _ _ e) by done. simpl.
    rewrite (count_of_find _ _ _ (Entry (value e - 1) (expire_at e))); [simpl; lia|].
    apply find_Some. split; [apply lookup_insert_eq|].
    apply find_Some in Hf as [_ Hl]. exact Hl.
  - rewrite refund_script_floor by lia. simpl. lia.
Qed.

(** X4. A record that sits at its limit (at least 1) before its deadline
    denies the next call; one refund later the same call, with a window
    above 0, is allowed again. *)
Theorem refund_frees_one_call (now : Z) (db : gmap string entry) (key : string)
    (limit window : Z) (e : entry) :
  db !! key = Some e →
  (∀ deadline, expire_at e = Some deadline → now < deadline) →
  value e = limit →
  1 <= limit →
  0 < window →
  (∃ r, fst (lua_script now db key limit window) = IntegerReply r ∧ r ≠ 0)
  ∧ fst (lua_script now (snd (_refund_script now db key)) key limit window)
    = IntegerReply 0.
Proof.
  intros Hk Hbefore Hv HL HW.
  assert (Hf : Redis.find now db key = Some e).
  { apply find_Some. split; [done|]. unfold Redis.live.
    destruct (expire_at e) as [d|]; [|done].
    apply bool_decide_eq_true. specialize (Hbefore d eq_refl). lia. }
  split.
  - rewrite (lua_script_deny _ _ _ _ _ e) by (done || lia). simpl.
    eexists. split; [done|].
    destruct (expire_at e) as [d|]; [|done].
    specialize (Hbefore d eq_refl). lia.
  - rewrite (refund_script_decr _ _ _ e) by (done || lia). simpl.
    set (db1 := <[key := Entry (value e - 1) (expire_at e)]> db).
    assert (Hf1 : Redis.find now db1 key = Some (Entry (value e - 1) (expire_at e))).
    { apply find_Some. split; [apply lookup_insert_eq|].
      apply find_Some in Hf as [_ Hl]. exact Hl. }
    destruct (decide (value e - 1 > 0)) as [Hgt|Hle].
    + by rewrite (lua_script_increment _ _ _ _ _ _ Hf1) by (simpl; lia).
    + rewrite lua_script_fresh; [done| |done].
      rewrite (count_of_find _ _ _ _ Hf1). simpl. lia.
Qed.

Lemma refund_frees_one_call_witness :
  (∃ r, fst (lua_script 100 {[ "k" := Entry 1 (Some 5000) ]} "k" 1 5000)
          = IntegerReply r ∧ r ≠ 0)
  ∧ fst (lua_script 100
           (snd (_refund_script 100 {[ "k" := Entry 1 (Some 5000) ]} "k"))
           "k" 1 5000) = IntegerReply 0.
Proof.
  apply (refund_frees_one_call 100 _ "k" 1 5000 (Entry 1 (Some 5000))).
  - reflexivity.
  - intros deadline [= <-]. lia.
  - reflexivity.
  - lia.
  - lia.
Defined.

(** X5. Refunds in excess of the charges stop at 0: [k] refunds of a count
    [c] leave [max 0 (c - k)]. *)
Theorem repeated_refunds_floor (now : Z) (db : gmap string entry) (key : string)
    (k : nat) :
  0 <= count_of now db key →
  count_of now (Nat.iter k (λ d, snd (_refund_script now d key)) db) key
    = Z.max 0 (count_of now db key - Z.of_nat k).
Proof.
  intros Hc. induction k as [|k IH].
  - simpl. lia.
  - rewrite Nat.iter_succ, refund_count; rewrite IH; lia.
Qed.

Lemma repeated_refunds_floor_witness :
  count_of 0 (Nat.iter 5 (λ d, snd (_refund_script 0 d "k"))
                {[ "k" := Entry 3 (Some 5000) ]}) "k"
    = Z.max 0 (count_of 0 {[ "k" := Entry 3 (Some 5000) ]} "k" - Z.of_nat 5).
Proof.
  apply (repeated_refunds_floor 0 {[ "k" := Entry 3 (Some 5000) ]} "k" 5).
  vm_compute. discriminate.
Defined.

(** X6. Executions on other keys never change the record of a key. *)
Theorem other_keys_untouched (db : gmap string entry)
    (sched : list (Z * string * store_op)) (key : string) :
  Forall (λ item, item.1.2 ≠ key) sched →
  run_ops db sched !! key = db !! key.
Proof.
  revert db. induction sched as [|[[t k] o] rest IH]; intros db Hall; [done|].
  apply Forall_cons in Hall as [Hk Hall]. simpl in *.
  rewrite IH by done. apply run_op_other. congruence.
Qed.

Lemma other_keys_untouched_witness :
  run_ops {[ "a" := Entry 1 (Some 5000) ]}
    [(0, "b", CheckAndCharge 1 5000); (1, "c", Refund); (2, "b", Refund)] !! "a"
  = ({[ "a" := Entry 1 (Some 5000) ]} : gmap string entry) !! "a".
Proof.
  apply (other_keys_untouched {[ "a" := Entry 1 (Some 5000) ]}
           [(0, "b", CheckAndCharge 1 5000); (1, "c", Refund); (2, "b", Refund)] "a").
  repeat constructor; simpl; discriminate.
Defined.

(** * Further properties of the keys and the identifier *)

Lemma string_app_assoc (a b c : string) : (a +:+ b) +:+ c = a +:+ (b +:+ c).
Proof.
  assert (Hcons : ∀ ch x y, String ch x +:+ y = String ch (x +:+ y)) by done.
  induction a as [|ch a IH]; [done|]. by rewrite !Hcons, IH.
Qed.

Lemma colon_inside (a y : string) : ¬ no_colon (a +:+ String ":" y).
Proof.
  assert (Hcons : ∀ ch x z, String ch x +:+ z = String ch (x +:+ z)) by done.
  induction a as [|ch a IH].
  - intros [Hc _]. done.
  - rewrite Hcons. intros [_ Hrest]. by apply IH.
Qed.

(** Splitting at the last colon. *)
Lemma last_colon_split (a : string) :
  ∀ b x y, no_colon x → no_colon y →
    a +:+ String ":" x = b +:+ String ":" y → a = b ∧ x = y.
Proof.
  assert (Hnil : ∀ z, "" +:+ z = z) by done.
  assert (Hcons : ∀ ch u z, String ch u +:+ z = String ch (u +:+ z)) by done.
  induction a as [|c a IH]; intros [|d b] x y Hx Hy Heq.
  - rewrite !Hnil in Heq. by injection Heq.
  - rewrite Hnil, Hcons in Heq. injection Heq as _ Heq.
    subst x. by apply colon_inside in Hx.
  - rewrite Hnil, Hcons in Heq. injection Heq as _ Heq.
    subst y. by apply colon_inside in Hy.
  - rewrite !Hcons in Heq. injection Heq as -> Heq.
    destruct (IH b x y Hx Hy Heq) as [-> ->]. done.
Qed.

(** X7. Under one prefix the HTTP key determines the identifier and both
    indices, colons inside the identifier included: two callers, two
    routes or two limiters never share a counter by accident of
    formatting. *)
Theorem http_key_injective (prefix : option string) (rk1 rk2 : string)
    (i1 j1 i2 j2 : nat) :
  http_key prefix rk1 i1 j1 = http_key prefix rk2 i2 j2 →
  rk1 = rk2 ∧ i1 = i2 ∧ j1 = j2.
Proof.
  unfold http_key. intros Heq. do 2 apply (inj (String.app _)) in Heq.
  assert (Hre : ∀ rk pi pj,
            rk +:+ ":" +:+ pi +:+ ":" +:+ pj = (rk +:+ String ":" pi) +:+ String ":" pj).
  { intros. by rewrite string_app_assoc. }
  rewrite !Hre in Heq.
  apply last_colon_split in Heq as [Heq Hj]; try apply pretty_nat_no_colon.
  apply last_colon_split in Heq as [Hrk Hi]; try apply pretty_nat_no_colon.
  repeat split; [done | by apply (inj pretty) | by apply (inj pretty)].
Qed.

Lemma http_key_injective_witness :
  "127.0.0.1:/" = "127.0.0.1:/" ∧ 2%nat = 2%nat ∧ 1%nat = 1%nat.
Proof.
  apply (http_key_injective (Some "fastapi-limiter") "127.0.0.1:/" "127.0.0.1:/" 2 1 2 1).
  reflexivity.
Defined.

(** X8. The websocket key separates context keys for one caller and callers
    for one context key; it separates both at once when the context keys,
    or the identifiers, hold no colon. *)
Theorem ws_key_separates (prefix : option string) (rk1 rk2 ck1 ck2 : string) :
  ws_key prefix rk1 ck1 = ws_key prefix rk2 ck2 →
  rk1 = rk2 ∨ ck1 = ck2 ∨ (no_colon ck1 ∧ no_colon ck2) ∨ (no_colon rk1 ∧ no_colon rk2) →
  rk1 = rk2 ∧ ck1 = ck2.
Proof.
  unfold ws_key. intros Heq Hcase. do 2 apply (inj (String.app _)) in Heq.
  destruct Hcase as [->|[->|[[H1 H2]|[H1 H2]]]].
  - by do 2 apply (inj (String.app _)) in Heq.
  - by apply string_app_inj_r in Heq.
  - by apply last_colon_split in Heq.
  - by apply colon_split in Heq.
Qed.

Lemma ws_key_separates_witness :
  "127.0.0.1:/ws" = "127.0.0.1:/ws" ∧ "hello" = "hello".
Proof.
  apply (ws_key_separates (Some "fastapi-limiter") "127.0.0.1:/ws" "127.0.0.1:/ws"
           "hello" "hello").
  - reflexivity.
  - by left.
Defined.

(** X9. When no route of the table has the path of the request, the scan
    finds nothing and the key carries the indices 0 and 0, whichever
    limiter is called: limiters with one identifier then share a
    counter. *)
Theorem unmatched_request_key (cfg : FastAPILimiter.t) (l1 l2 : RateLimiter.t)
    (request : Request) :
  (∀ n route, app_routes request !! n = Some route →
     route_matches request route = false) →
  or_else (RateLimiter.identifier l1) (FastAPILimiter.identifier cfg)
    = or_else (RateLimiter.identifier l2) (FastAPILimiter.identifier cfg) →
  RateLimiter.key cfg l1 request
    = match call_identifier
              (or_else (RateLimiter.identifier l1) (FastAPILimiter.identifier cfg))
              request with
      | Return rate_key => Return (http_key (FastAPILimiter.prefix cfg) rate_key 0 0)
      | Raise e => Raise e
      end
  ∧ RateLimiter.key cfg l1 request = RateLimiter.key cfg l2 request.
Proof.
  intros Hno Hid. unfold RateLimiter.key.
  rewrite !scan_routes_no_match by done. by rewrite Hid.
Qed.

Lemma unmatched_request_key_witness :
  RateLimiter.key (@main.cfg main.tagging) main.multiple_1
    (main.request "GET" "/items/5" [] [])
    = Return "fastapi-limiter:127.0.0.1:/items/5:0:0"
  ∧ RateLimiter.key (@main.cfg main.tagging) main.multiple_1
      (main.request "GET" "/items/5" [] [])
    = RateLimiter.key (@main.cfg main.tagging) main.multiple_2
        (main.request "GET" "/items/5" [] []).
Proof.
  apply (unmatched_request_key (@main.cfg main.tagging) main.multiple_1 main.multiple_2
           (main.request "GET" "/items/5" [] [])).
  - intros n route Hn.
    do 5 (destruct n as [|n]; [injection Hn as <-; by vm_compute |]).
    discriminate.
  - reflexivity.
Defined.

Lemma split_comma_0_whole (s : string) : no_comma s → split_comma_0 s = s.
Proof.
  induction s as [|c s IH]; [done|]. intros [Hc Hs]. simpl.
  rewrite bool_decide_eq_false_2 by done. by rewrite IH.
Qed.

Lemma split_comma_0_first (a b : string) :
  no_comma a → split_comma_0 (a +:+ String "," b) = a.
Proof.
  assert (Hcons : ∀ ch u z, String ch u +:+ z = String ch (u +:+ z)) by done.
  induction a as [|c a IH]; [done|]. intros [Hc Ha]. rewrite Hcons. simpl.
  rewrite bool_decide_eq_false_2 by done. by rewrite IH.
Qed.

(** X10. With a non-empty [X-Forwarded-For] header the default identifier is
    the text before the first comma of the header, then a colon and the
    path; the address of the connection plays no part. *)
Theorem forwarded_header_names_the_caller (request : Request) (f a : string) :
  headers_get (headers request) "X-Forwarded-For" = Some f →
  f ≠ "" →
  no_comma a →
  f = a ∨ (∃ b, f = a +:+ String "," b) →
  default_identifier request = a +:+ ":" +:+ scope_path request.
Proof.
  intros Hget Hne Ha Hf. unfold default_identifier. rewrite Hget.
  rewrite bool_decide_eq_false_2 by done.
  destruct Hf as [->|[b ->]].
  - by rewrite split_comma_0_whole.
  - by rewrite split_comma_0_first.
Qed.

Lemma forwarded_header_names_the_caller_witness :
  default_identifier
    (main.request "GET" "/" [("x-forwarded-for", "10.0.0.1, 10.0.0.2")] [])
  = "10.0.0.1" +:+ ":" +:+ "/".
Proof.
  apply (forwarded_header_names_the_caller
           (main.request "GET" "/" [("x-forwarded-for", "10.0.0.1, 10.0.0.2")] [])
           "10.0.0.1, 10.0.0.2" "10.0.0.1").
  - reflexivity.
  - discriminate.
  - repeat split; discriminate.
  - right. by exists " 10.0.0.2".
Defined.

(** X11. Without the header, and for connection addresses that hold no colon,
    the default identifier tells apart both the address and the path. *)
Theorem default_identifier_separates (r1 r2 : Request) :
  headers_get (headers r1) "X-Forwarded-For" = None →
  headers_get (headers r2) "X-Forwarded-For" = None →
  no_colon (client_host r1) →
  no_colon (client_host r2) →
  default_identifier r1 = default_identifier r2 →
  client_host r1 = client_host r2 ∧ scope_path r1 = scope_path r2.
Proof.
  unfold default_identifier. intros -> -> H1 H2 Heq.
  by apply colon_split in Heq.
Qed.

Lemma default_identifier_separates_witness :
  client_host (main.request "GET" "/" [] []) = client_host (main.request "POST" "/" [] [])
  ∧ scope_path (main.request "GET" "/" [] []) = scope_path (main.request "POST" "/" [] []).
Proof.
  apply (default_identifier_separates (main.request "GET" "/" [] [])
           (main.request "POST" "/" [] [])).
  - reflexivity.
  - reflexivity.
  - repeat split; discriminate.
  - repeat split; discriminate.
  - reflexivity.
Defined.

(** The rounded quotient is within half a unit of the quotient. *)
Lemma round_half_even_near (n d : Z) :
  0 < d → - d <= 2 * (d * round_half_even n d - n) <= d.
Proof.
  intros Hd. unfold round_half_even.
  pose proof (Z.div_mod n d ltac:(lia)) as Hdm.
  pose proof (Z.mod_pos_bound n d Hd) as Hb.
  set (q := n `div` d) in *. set (r := n `mod` d) in *. clearbody q r.
  destruct (2 * r <? d)%Z eqn:H1; [apply Z.ltb_lt in H1; lia|].
  apply Z.ltb_ge in H1.
  destruct (d <? 2 * r)%Z eqn:H2; [apply Z.ltb_lt in H2; lia|].
  apply Z.ltb_ge in H2.
  destruct (Z.even q); lia.
Qed.

(** Below [1000 * 2^44] milliseconds (more than five centuries) the
    quotient keeps at least nine bits after the binary point, which is
    enough to tell a multiple of 1/1000 from the next integer: the
    rounding of the division does not show, and [ceil_div] is the
    ceiling of the exact quotient. *)
Lemma ceil_div_exact (a : Z) :
  Z.abs a < 1000 * 2 ^ 44 → ceil_div a 1000 = - ((- a) `div` 1000).
Proof.
  intros Ha. unfold ceil_div.
  destruct (a =? 0)%Z eqn:H0; [apply Z.eqb_eq in H0; by subst|].
  apply Z.eqb_neq in H0.
  set (n := Z.abs a) in *. assert (Hpos : 0 < n) by (subst n; lia).
  change (Z.log2 1000) with 9.
  set (t := Z.log2 n - 9).
  set (e := if below_pow2 n 1000 t then t - 1 else t).
  assert (He : e <= 43).
  { assert (Hlog : Z.log2 n < 54).
    { apply Z.log2_lt_pow2; [done|]. change (2 ^ 54) with (1024 * 2 ^ 44). lia. }
    subst e. destruct (Z.eq_dec t 44) as [Ht|Ht].
    - unfold below_pow2. rewrite Ht. change (0 <=? 44)%Z with true.
      cbv iota. replace (n <? 1000 * 2 ^ 44)%Z with true; [lia|].
      symmetry. apply Z.ltb_lt. lia.
    - destruct (below_pow2 n 1000 t); lia. }
  set (s := 52 - e). assert (Hs : 9 <= s) by lia.
  replace (0 <=? s)%Z with true by (symmetry; apply Z.leb_le; lia).
  cbv zeta.
  set (P := 2 ^ s).
  assert (HP : 512 <= P).
  { change 512 with (2 ^ 9). apply Z.pow_le_mono_r; lia. }
  set (m := round_half_even (n * P) 1000).
  pose proof (round_half_even_near (n * P) 1000 ltac:(lia)) as Hm. fold m in Hm.
  destruct (0 <? a)%Z eqn:Hsign.
  - apply Z.ltb_lt in Hsign. assert (Hn : n = a) by (subst n; lia).
    set (k := - ((- a) `div` 1000)).
    assert (Hk : 1000 * (k - 1) < n <= 1000 * k).
    { subst k. pose proof (Z.div_mod (- a) 1000 ltac:(lia)).
      pose proof (Z.mod_pos_bound (- a) 1000 ltac:(lia)). lia. }
    assert (H1 : n * P <= 1000 * k * P) by (apply Z.mul_le_mono_nonneg_r; lia).
    assert (H2 : (1000 * (k - 1) + 1) * P <= n * P)
      by (apply Z.mul_le_mono_nonneg_r; lia).
    assert (Hm' : P * (k - 1) < m <= P * k) by nia.
    assert (Hq : (- m) `div` P = - k).
    { symmetry. apply (Z.div_unique (- m) P (- k) (P * k - m)); lia. }
    rewrite Hq. lia.
  - apply Z.ltb_ge in Hsign. assert (Hn : n = - a) by (subst n; lia).
    rewrite <- Hn.
    set (k := n `div` 1000).
    assert (Hk : 1000 * k <= n <= 1000 * k + 999).
    { subst k. pose proof (Z.div_mod n 1000 ltac:(lia)).
      pose proof (Z.mod_pos_bound n 1000 ltac:(lia)). lia. }
    assert (H1 : 1000 * k * P <= n * P) by (apply Z.mul_le_mono_nonneg_r; lia).
    assert (H2 : n * P <= (1000 * k + 999) * P)
      by (apply Z.mul_le_mono_nonneg_r; lia).
    assert (Hm' : P * k <= m < P * (k + 1)) by nia.
    assert (Hq : m `div` P = k).
    { symmetry. apply (Z.div_unique m P k (m - P * k)); lia. }
    by rewrite Hq.
Qed.

(** Above that bound the rounding of the division shows: the quotient of
    [10^17 + 1] by 1000 is rounded down to the integer [10^14] before
    the ceiling is taken, and five thousand million hours less 999
    milliseconds give one second less than the exact ceiling. *)
Example ceil_div_of_rounded_quotient :
  ceil_div 100000000000000001 1000 = 100000000000000
  ∧ - ((- 100000000000000001) `div` 1000) = 100000000000001
  ∧ ceil_div 17999999999999001 1000 = 17999999999999
  ∧ - ((- 17999999999999001) `div` 1000) = 18000000000000.
Proof. repeat split; vm_compute; reflexivity. Qed.

(** X12. The default callbacks raise a 429 whose [Retry-After] is
    [ceil(pexpire / 1000)]; for a remaining time below [1000 * 2^44]
    milliseconds, as every window of that size gives, it is the remaining
    time rounded up to whole seconds: never less than the time left, and
    less than a second more. *)
Theorem default_callbacks_round_up (request : Request) (pexpire : Z) (w : World) :
  Z.abs pexpire < 1000 * 2 ^ 44 →
  http_default_callback request pexpire w
    = (Raise (HTTPException 429 "Too Many Requests"
                [("Retry-After", pretty (ceil_div pexpire 1000))]), w)
  ∧ ws_default_callback request pexpire w
    = (Raise (HTTPException 429 "Too Many Requests"
                [("Retry-After", pretty (ceil_div pexpire 1000))]), w)
  ∧ 1000 * (ceil_div pexpire 1000 - 1) < pexpire <= 1000 * ceil_div pexpire 1000.
Proof.
  intros Hbound. split; [done|]. split; [done|].
  rewrite ceil_div_exact by done.
  pose proof (Z.div_mod (- pexpire) 1000 ltac:(lia)) as Hdm.
  pose proof (Z.mod_pos_bound (- pexpire) 1000 ltac:(lia)) as Hb.
  lia.
Qed.

Lemma default_callbacks_round_up_witness :
  http_default_callback (main.request "GET" "/" [] []) 4001 main.started
    = (Raise (HTTPException 429 "Too Many Requests"
                [("Retry-After", pretty (ceil_div 4001 1000))]), main.started)
  ∧ ws_default_callback (main.request "GET" "/" [] []) 4001 main.started
    = (Raise (HTTPException 429 "Too Many Requests"
                [("Retry-After", pretty (ceil_div 4001 1000))]), main.started)
  ∧ 1000 * (ceil_div 4001 1000 - 1) < 4001 <= 1000 * ceil_div 4001 1000.
Proof.
  apply (default_callbacks_round_up (main.request "GET" "/" [] []) 4001 main.started).
  vm_compute. reflexivity.
Defined.

(** * Further properties of the HTTP limiter *)

Lemma account_served (cfg : FastAPILimiter.t) (self : RateLimiter.t)
    (request : Request) (key : string) (w : World) :
  FastAPILimiter.redis cfg ≠ None →
  RateLimiter.key cfg self request = Return key →
  served w →
  ∃ w1,
    RateLimiter.account cfg self request w
      = (match fst (lua_script (clock w) (db w) key (RateLimiter.times self)
                      (RateLimiter.milliseconds self)) with
         | IntegerReply pexpire =>
             if bool_decide (pexpire ≠ 0)
             then call (or_else (RateLimiter.callback self)
                          (FastAPILimiter.http_callback cfg)) request pexpire
             else ret tt
         | ErrorReply => raise ResponseError
         end) w1
    ∧ db w1 = snd (lua_script (clock w) (db w) key (RateLimiter.times self)
                     (RateLimiter.milliseconds self))
    ∧ clock w1 = clock w
    ∧ evalsha_keys (log w1) = (evalsha_keys (log w) ++ [key])%list
    ∧ script_loads (log w1) = script_loads (log w).
Proof.
  intros Hredis Hkey Hs.
  destruct (check_served self key w Hs) as (w1 & Hc & Hdb & Hlog & _ & _ & Hclock).
  exists w1. unfold RateLimiter.account.
  destruct (FastAPILimiter.redis cfg); [|done].
  rewrite Hkey. unfold bind at 1. unfold lift at 1. unfold bind at 1.
  unfold try_except. rewrite Hc.
  split; [by destruct (fst (lua_script _ _ _ _ _))|]. split; [done|]. split; [done|].
  rewrite Hlog. clear. split.
  - induction (log w) as [|[sc|sha k a] l IH]; simpl; congruence.
  - induction (log w) as [|[sc|sha k a] l IH]; simpl; congruence.
Qed.

(** X13. A call that finds the counter at its limit raises the 429 of the
    default callback, whose [Retry-After] is [ceil(pexpire / 1000)] of
    the milliseconds left in the window, and leaves the counter as it
    was.  With less than [1000 * 2^44] milliseconds left, that is the
    time left rounded up to whole seconds. *)
Theorem http_denial_raises_429 `{Hashlib} (cfg : FastAPILimiter.t)
    (self : RateLimiter.t) (request : Request) (key : string) (w : World)
    (e : entry) (deadline : Z) :
  RateLimiter.enable_bypass self = false →
  FastAPILimiter.redis cfg ≠ None →
  RateLimiter.callback self = None →
  FastAPILimiter.http_callback cfg = Some http_default_callback →
  RateLimiter.key cfg self request = Return key →
  served w →
  db w !! key = Some e →
  expire_at e = Some deadline →
  clock w < deadline →
  value e > 0 →
  value e + 1 > RateLimiter.times self →
  ∃ w1,
    RateLimiter.__call__ cfg self request w
      = (Raise (HTTPException 429 "Too Many Requests"
                  [("Retry-After", pretty (ceil_div (deadline - clock w) 1000))]), w1)
    ∧ db w1 = db w
    ∧ (deadline - clock w < 1000 * 2 ^ 44 →
       ceil_div (deadline - clock w) 1000 = - ((- (deadline - clock w)) `div` 1000)).
Proof.
  intros Hb Hredis Hcb Hdcb Hkey Hs Hk Hd Hlive Hpos Hgt.
  destruct (account_served cfg self request key w Hredis Hkey Hs)
    as (w1 & Hacc & Hdb & _).
  assert (Hf : Redis.find (clock w) (db w) key = Some e).
  { apply find_Some. split; [done|]. unfold Redis.live. rewrite Hd.
    apply bool_decide_eq_true. lia. }
  rewrite (lua_script_deny _ _ _ _ _ e Hf Hpos Hgt), Hd in Hacc, Hdb. simpl in *.
  exists w1. split; [|split; [done|]].
  - unfold RateLimiter.__call__. rewrite Hb. unfold bind at 1. unfold ret at 1.
    rewrite Hacc, bool_decide_eq_true_2 by lia.
    by rewrite Hcb, Hdcb.
  - intros Hbound. apply ceil_div_exact. lia.
Qed.

Lemma http_denial_raises_429_witness :
  ∃ w1,
    @RateLimiter.__call__ main.tagging (@main.cfg main.tagging) main.index_post
      (main.request "POST" "/" [] []) (@main.after_post main.tagging)
      = (Raise (HTTPException 429 "Too Many Requests"
                  [("Retry-After",
                    pretty (ceil_div (5000 - clock (@main.after_post main.tagging)) 1000))]),
         w1)
    ∧ db w1 = db (@main.after_post main.tagging)
    ∧ (5000 - clock (@main.after_post main.tagging) < 1000 * 2 ^ 44 →
       ceil_div (5000 - clock (@main.after_post main.tagging)) 1000
       = - ((- (5000 - clock (@main.after_post main.tagging))) `div` 1000)).
Proof.
  apply (@http_denial_raises_429 main.tagging (@main.cfg main.tagging) main.index_post
           (main.request "POST" "/" [] []) "fastapi-limiter:127.0.0.1:/:1:0"
           (@main.after_post main.tagging) (Entry 1 (Some 5000)) 5000).
  - reflexivity.
  - discriminate.
  - reflexivity.
  - reflexivity.
  - reflexivity.
  - split; [by left|]. split; [reflexivity|]. by apply list_elem_of_here.
  - reflexivity.
  - reflexivity.
  - vm_compute. reflexivity.
  - simpl. lia.
  - simpl. lia.
Defined.

(** X14. A call that finds the counter below its limit returns normally and
    the count read back is one more; no other key changes. *)
Theorem http_allowed_charges_once `{Hashlib} (cfg : FastAPILimiter.t)
    (self : RateLimiter.t) (request : Request) (key : string) (w : World) :
  RateLimiter.enable_bypass self = false →
  FastAPILimiter.redis cfg ≠ None →
  RateLimiter.key cfg self request = Return key →
  served w →
  0 < RateLimiter.milliseconds self →
  0 <= count_of (clock w) (db w) key →
  count_of (clock w) (db w) key = 0
    ∨ count_of (clock w) (db w) key + 1 <= RateLimiter.times self →
  ∃ w1,
    RateLimiter.__call__ cfg self request w = (Return tt, w1)
    ∧ count_of (clock w) (db w1) key = count_of (clock w) (db w) key + 1
    ∧ ∀ k, k ≠ key → db w1 !! k = db w !! k.
Proof.
  intros Hb Hredis Hkey Hs Hms Hc0 Hc.
  destruct (account_served cfg self request key w Hredis Hkey Hs)
    as (w1 & Hacc & Hdb & _).
  exists w1.
  assert (Hother : ∀ k, k ≠ key → db w1 !! k = db w !! k).
  { intros k Hne. rewrite Hdb.
    apply (run_op_other (clock w) (db w) key
             (CheckAndCharge (RateLimiter.times self) (RateLimiter.milliseconds self))).
    done. }
  assert (Hcall : RateLimiter.__call__ cfg self request w
                  = RateLimiter.account cfg self request w).
  { unfold RateLimiter.__call__. by rewrite Hb. }
  rewrite Hcall, Hacc.
  destruct (decide (count_of (clock w) (db w) key > 0)) as [Hgt|Hle].
  - destruct (Redis.find (clock w) (db w) key) as [e|] eqn:Hf;
      [|rewrite (count_of_absent _ _ _ Hf) in Hgt; lia].
    rewrite (count_of_find _ _ _ _ Hf) in *.
    rewrite (lua_script_increment _ _ _ _ _ e) in Hdb |- * by (done || lia).
    simpl in *. split; [done|]. split; [|done]. rewrite Hdb.
    apply (count_of_find _ _ _ (Entry (value e + 1) (expire_at e))).
    apply find_Some. split; [apply lookup_insert_eq|].
    apply find_Some in Hf as [_ Hl]. exact Hl.
  - rewrite lua_script_fresh in Hdb |- * by lia.
    simpl in *. split; [done|]. split; [|done]. rewrite Hdb.
    rewrite (count_of_find _ _ _ (Entry 1 (Some (clock w + RateLimiter.milliseconds self)))).
    + simpl. lia.
    + apply find_Some. split; [apply lookup_insert_eq|].
      simpl. apply bool_decide_eq_true. lia.
Qed.

Lemma http_allowed_charges_once_witness :
  ∃ w1,
    @RateLimiter.__call__ main.tagging (@main.cfg main.tagging) main.index_get
      (main.request "GET" "/" [] []) main.started = (Return tt, w1)
    ∧ count_of (clock main.started) (db w1) "fastapi-limiter:127.0.0.1:/:0:0"
      = count_of (clock main.started) (db main.started)
          "fastapi-limiter:127.0.0.1:/:0:0" + 1
    ∧ ∀ k, k ≠ "fastapi-limiter:127.0.0.1:/:0:0" →
           db w1 !! k = db main.started !! k.
Proof.
  apply (@http_allowed_charges_once main.tagging (@main.cfg main.tagging) main.index_get
           (main.request "GET" "/" [] []) "fastapi-limiter:127.0.0.1:/:0:0" main.started).
  - reflexivity.
  - discriminate.
  - reflexivity.
  - split; [by left|]. split; [reflexivity|]. by apply list_elem_of_here.
  - vm_compute. reflexivity.
  - vm_compute. discriminate.
  - left. reflexivity.
Defined.

Lemma http_reloads_and_retries_once_witness :
  ∃ w1,
    RateLimiter.account (@main.cfg main.tagging) main.index_get
      (main.request "GET" "/" [] []) main.evicted
      = (match fst (lua_script (clock main.evicted) (db main.evicted)
                      "fastapi-limiter:127.0.0.1:/:0:0"
                      (RateLimiter.times main.index_get)
                      (RateLimiter.milliseconds main.index_get)) with
         | IntegerReply pexpire =>
             if bool_decide (pexpire ≠ 0)
             then call (or_else (RateLimiter.callback main.index_get)
                          (FastAPILimiter.http_callback (@main.cfg main.tagging)))
                    (main.request "GET" "/" [] []) pexpire
             else ret tt
         | ErrorReply => raise ResponseError
         end) w1
    ∧ db w1 = snd (lua_script (clock main.evicted) (db main.evicted)
                     "fastapi-limiter:127.0.0.1:/:0:0"
                     (RateLimiter.times main.index_get)
                     (RateLimiter.milliseconds main.index_get))
    ∧ log w1 = (log main.evicted ++
                [EvalSha (Some LimiterScript) "fastapi-limiter:127.0.0.1:/:0:0"
                   [RateLimiter.times main.index_get;
                    RateLimiter.milliseconds main.index_get];
                 ScriptLoad LimiterScript;
                 EvalSha (Some LimiterScript) "fastapi-limiter:127.0.0.1:/:0:0"
                   [RateLimiter.times main.index_get;
                    RateLimiter.milliseconds main.index_get]])%list.
Proof.
  apply (http_reloads_and_retries_once (@main.cfg main.tagging) main.index_get
           (main.request "GET" "/" [] []) "fastapi-limiter:127.0.0.1:/:0:0"
           main.evicted).
  - discriminate.
  - reflexivity.
  - reflexivity.
  - reflexivity.
  - simpl. apply not_elem_of_nil.
Defined.

Lemma http_store_failure_propagates_witness :
  ∃ w1,
    RateLimiter.account (@main.cfg main.tagging) main.index_get
      (main.request "GET" "/" [] [])
      (with_faults [Unreachable] [LimiterScript] main.started)
      = (Raise RedisError, w1)
    ∧ db w1 = db (with_faults [Unreachable] [LimiterScript] main.started)
    ∧ log w1 = (log (with_faults [Unreachable] [LimiterScript] main.started) ++
                [EvalSha (lua_sha (with_faults [Unreachable] [LimiterScript] main.started))
                   "fastapi-limiter:127.0.0.1:/:0:0"
                   [RateLimiter.times main.index_get;
                    RateLimiter.milliseconds main.index_get]])%list.
Proof.
  apply (http_store_failure_propagates (@main.cfg main.tagging) main.index_get
           (main.request "GET" "/" [] []) "fastapi-limiter:127.0.0.1:/:0:0"
           (with_faults [Unreachable] [LimiterScript] main.started) []).
  - discriminate.
  - reflexivity.
  - reflexivity.
Defined.

(** X17. After a script-not-found answer the limiter reloads and tries once
    more; if that second attempt fails too, because the store cannot be
    reached or has dropped the script again, the failure is raised: there
    is no third attempt and the counter is not touched. *)
Theorem http_gives_up_after_second_attempt (cfg : FastAPILimiter.t)
    (self : RateLimiter.t) (request : Request) (key : string) (w : World)
    (third : fault) (fs : list fault) :
  FastAPILimiter.redis cfg ≠ None →
  RateLimiter.key cfg self request = Return key →
  lua_sha w = Some LimiterScript →
  LimiterScript ∉ script_cache w →
  faults w = Reachable :: Reachable :: third :: fs →
  third ≠ Reachable →
  ∃ w1,
    RateLimiter.account cfg self request w
      = (Raise (match third with Unreachable => RedisError | _ => NoScriptError end), w1)
    ∧ db w1 = db w
    ∧ log w1 = (log w ++
                [EvalSha (Some LimiterScript) key
                   [RateLimiter.times self; RateLimiter.milliseconds self];
                 ScriptLoad LimiterScript;
                 EvalSha (Some LimiterScript) key
                   [RateLimiter.times self; RateLimiter.milliseconds self]])%list.
Proof.
  destruct w as [d cache t fs0 lg sha rsha]. simpl.
  intros Hredis Hkey -> Hc -> Hthird.
  unfold RateLimiter.account. destruct (FastAPILimiter.redis cfg); [|done].
  rewrite Hkey.
  unfold bind at 1. unfold lift at 1. unfold bind at 1.
  unfold try_except, RateLimiter._check, bind, get_lua_sha, evalsha, bind, record,
    round_trip, cached, run_script, script_load, cache_script, set_lua_sha, raise, ret.
  cbn.
  rewrite bool_decide_eq_false_2 by done. cbn.
  destruct third; [done| |]; cbn.
  - eexists. split; [reflexivity|]. cbn. split; [reflexivity|].
    by rewrite <- !app_assoc.
  - rewrite bool_decide_eq_false_2 by apply not_elem_of_nil. cbn.
    eexists. split; [reflexivity|]. cbn. split; [reflexivity|].
    by rewrite <- !app_assoc.
Qed.

Lemma http_gives_up_after_second_attempt_witness :
  ∃ w1,
    RateLimiter.account (@main.cfg main.tagging) main.index_get
      (main.request "GET" "/" [] [])
      (with_faults [Reachable; Reachable; ScriptFlush] [] main.evicted)
      = (Raise NoScriptError, w1)
    ∧ db w1 = db (with_faults [Reachable; Reachable; ScriptFlush] [] main.evicted)
    ∧ log w1 = (log (with_faults [Reachable; Reachable; ScriptFlush] [] main.evicted) ++
                [EvalSha (Some LimiterScript) "fastapi-limiter:127.0.0.1:/:0:0"
                   [RateLimiter.times main.index_get;
                    RateLimiter.milliseconds main.index_get];
                 ScriptLoad LimiterScript;
                 EvalSha (Some LimiterScript) "fastapi-limiter:127.0.0.1:/:0:0"
                   [RateLimiter.times main.index_get;
                    RateLimiter.milliseconds main.index_get]])%list.
Proof.
  apply (http_gives_up_after_second_attempt (@main.cfg main.tagging) main.index_get
           (main.request "GET" "/" [] []) "fastapi-limiter:127.0.0.1:/:0:0"
           (with_faults [Reachable; Reachable; ScriptFlush] [] main.evicted)
           ScriptFlush []).
  - discriminate.
  - reflexivity.
  - reflexivity.
  - simpl. apply not_elem_of_nil.
  - reflexivity.
  - discriminate.
Defined.

(** X18. Before [FastAPILimiter.init] nothing reaches the store: a limiter
    without bypass and a websocket limiter raise the "You must call"
    exception, a limiter with bypass fails earlier, on the bypass
    attributes that only [init] creates, and a refund returns silently. *)
Theorem before_init `{Hashlib} (self : RateLimiter.t) (request : Request)
    (context_key : string) (w : World) :
  (RateLimiter.enable_bypass self = false →
     RateLimiter.__call__ FastAPILimiter.declared self request w
       = (Raise (Exception
                   "You must call FastAPILimiter.init in startup event of fastapi!"), w))
  ∧ (RateLimiter.enable_bypass self = true →
       RateLimiter.__call__ FastAPILimiter.declared self request w
         = (Raise AttributeError, w))
  ∧ WebSocketRateLimiter.__call__ FastAPILimiter.declared self request context_key w
      = (Raise (Exception
                  "You must call FastAPILimiter.init in startup event of fastapi!"), w)
  ∧ refund_rate_limit_for_request FastAPILimiter.declared request w = (Return tt, w).
Proof.
  repeat split.
  - intros Hb. unfold RateLimiter.__call__. by rewrite Hb.
  - intros Hb. unfold RateLimiter.__call__. by rewrite Hb.
Qed.

Lemma before_init_witness :
  @RateLimiter.__call__ main.tagging FastAPILimiter.declared main.bypass_bearer
    (main.request "GET" "/bypass_bearer" [] []) main.fresh
    = (Raise AttributeError, main.fresh)
  ∧ @RateLimiter.__call__ main.tagging FastAPILimiter.declared main.index_get
      (main.request "GET" "/" [] []) main.fresh
    = (Raise (Exception
                "You must call FastAPILimiter.init in startup event of fastapi!"),
       main.fresh).
Proof.
  split.
  - destruct (@before_init main.tagging main.bypass_bearer
                (main.request "GET" "/bypass_bearer" [] []) "" main.fresh)
      as (_ & Hb & _).
    apply Hb. reflexivity.
  - destruct (@before_init main.tagging main.index_get
                (main.request "GET" "/" [] []) "" main.fresh)
      as (Ha & _).
    apply Ha. reflexivity.
Defined.

(** * Further properties of the bypass *)

Section bypass_after_init.
Context `{Hashlib}.

(** What [init] leaves in the class, whenever it returns. *)
Lemma init_config (redis : option unit) (prefix : string)
    (identifier : option (Request → string))
    (http_callback ws_callback : option (Request → Z → M unit))
    (passwords params bearers api_keys : option (list string))
    (w0 w1 : World) (cfg : FastAPILimiter.t) :
  FastAPILimiter.init redis prefix identifier http_callback ws_callback
    passwords params bearers api_keys w0 = (Return cfg, w1) →
  cfg = {| FastAPILimiter.redis := redis;
           FastAPILimiter.prefix := Some prefix;
           FastAPILimiter.identifier := identifier;
           FastAPILimiter.http_callback := http_callback;
           FastAPILimiter.ws_callback := ws_callback;
           FastAPILimiter.authorized_passwords :=
             Some (map hash_password (default [] passwords));
           FastAPILimiter.query_param_names := Some (default [] params);
           FastAPILimiter.bearer_token_headers := Some (default [] bearers);
           FastAPILimiter.api_key_headers := Some (default [] api_keys) |}.
Proof.
  unfold FastAPILimiter.init, bind, script_load, bind, record, round_trip,
    cache_script, set_lua_sha, ret. cbn.
  destruct (faults w0) as [|[| |] fs]; cbn; congruence.
Qed.

(** X19. A request that carries one of the passwords given to [init], in a
    configured query parameter or api-key header, returns at once from a
    limiter with bypass: nothing is sent to the store and nothing
    changes, whatever the state of the store and of the counters. *)
Theorem authorized_secret_skips_accounting (redis : option unit) (prefix : string)
    (identifier : option (Request → string))
    (http_callback ws_callback : option (Request → Z → M unit))
    (passwords params bearers api_keys : option (list string))
    (w0 w1 : World) (cfg : FastAPILimiter.t)
    (self : RateLimiter.t) (request : Request) (name secret : string) (w : World) :
  FastAPILimiter.init redis prefix identifier http_callback ws_callback
    passwords params bearers api_keys w0 = (Return cfg, w1) →
  RateLimiter.enable_bypass self = true →
  secret ∈ default [] passwords →
  (name ∈ default [] params ∧ query_get (query_params request) name "" = secret)
  ∨ (name ∈ default [] api_keys
     ∧ headers_get_default (headers request) name "" = secret) →
  RateLimiter.__call__ cfg self request w = (Return tt, w).
Proof.
  intros Hinit Hb Hsecret Hsource. apply init_config in Hinit. subst cfg.
  apply bypass_hit_no_charge; [done|].
  assert (Hin : hash_input secret ∈ map hash_password (default [] passwords)).
  { apply list_elem_of_fmap. by exists secret. }
  destruct Hsource as [[Hname <-]|[Hname <-]].
  - by eapply bypass_by_query_param.
  - by eapply bypass_by_api_key.
Qed.

Lemma existsb_none {A} (l : list A) : existsb (λ _, false) l = false.
Proof. by induction l. Qed.

(** X20. With no password given to [init], or with no source name at all,
    [enable_bypass] has no effect: every call goes to the accounting. *)
Theorem bypass_needs_configuration (redis : option unit) (prefix : string)
    (identifier : option (Request → string))
    (http_callback ws_callback : option (Request → Z → M unit))
    (passwords params bearers api_keys : option (list string))
    (w0 w1 : World) (cfg : FastAPILimiter.t)
    (self : RateLimiter.t) (request : Request) (w : World) :
  FastAPILimiter.init redis prefix identifier http_callback ws_callback
    passwords params bearers api_keys w0 = (Return cfg, w1) →
  default [] passwords = []
  ∨ (default [] params = [] ∧ default [] bearers = [] ∧ default [] api_keys = []) →
  RateLimiter.__call__ cfg self request w = RateLimiter.account cfg self request w.
Proof.
  intros Hinit Hcase. apply init_config in Hinit. subst cfg.
  apply bypass_miss_accounts.
  erewrite bypass_spec by reflexivity.
  destruct Hcase as [->|(-> & -> & ->)]; [|done].
  simpl. by rewrite !existsb_none.
Qed.

End bypass_after_init.

Lemma authorized_secret_skips_accounting_witness :
  @RateLimiter.__call__ main.tagging (@main.cfg main.tagging) main.bypass_query_params
    (main.request "GET" "/bypass_query_params" []
       [("special_param", "another_super_secret_bypass_password")])
    (with_faults [Unreachable] [] (@main.after_post main.tagging))
  = (Return tt, with_faults [Unreachable] [] (@main.after_post main.tagging)).
Proof.
  apply (@authorized_secret_skips_accounting main.tagging
           (Some tt) "fastapi-limiter" (Some default_identifier)
           (Some http_default_callback) (Some ws_default_callback)
           (Some ["secrets_bypass_password"; "another_super_secret_bypass_password"])
           (Some ["password"; "special_param"]) (Some ["bearer"])
           (Some ["Api-Key"; "X-API-Key"]) main.fresh main.started
           (@main.cfg main.tagging) main.bypass_query_params _
           "special_param" "another_super_secret_bypass_password").
  - reflexivity.
  - reflexivity.
  - simpl. apply list_elem_of_further, list_elem_of_here.
  - left. split; [|reflexivity]. simpl. apply list_elem_of_further, list_elem_of_here.
Defined.

Lemma bypass_needs_configuration_witness :
  @RateLimiter.__call__ main.tagging main.cfg_without_passwords
    main.bypass_query_params
    (main.request "GET" "/bypass_query_params" [] [("password", "guess")])
    main.started
  = RateLimiter.account main.cfg_without_passwords main.bypass_query_params
      (main.request "GET" "/bypass_query_params" [] [("password", "guess")])
      main.started.
Proof.
  apply (@bypass_needs_configuration main.tagging
           (Some tt) "fastapi-limiter" (Some default_identifier)
           (Some http_default_callback) (Some ws_default_callback)
           None (Some ["password"]) None None main.fresh main.started).
  - reflexivity.
  - by left.
Defined.

(** * Further properties of the refund *)

Lemma evalsha_keys_app (l1 l2 : list event) :
  evalsha_keys (l1 ++ l2) = (evalsha_keys l1 ++ evalsha_keys l2)%list.
Proof. induction l1 as [|[sc|sha k a] l IH]; simpl; congruence. Qed.

Lemma script_loads_app (l1 l2 : list event) :
  script_loads (l1 ++ l2) = (script_loads l1 + script_loads l2)%nat.
Proof. induction l1 as [|[sc|sha k a] l IH]; simpl; congruence. Qed.

(** One refund on a healthy store. *)
Lemma refund_one_ready (cfg : FastAPILimiter.t) (request : Request)
    (i j : nat) (g : Request → string) (w : World) :
  FastAPILimiter.identifier cfg = Some g →
  refund_ready w →
  ∃ w1,
    refund_one cfg request i j w = (Return tt, w1)
    ∧ db w1 = snd (_refund_script (clock w) (db w)
                     (http_key (FastAPILimiter.prefix cfg) (g request) i j))
    ∧ clock w1 = clock w
    ∧ lua_sha w1 = lua_sha w
    ∧ faults w1 = []
    ∧ _refund_script_sha w1 = Some RefundScript
    ∧ RefundScript ∈ script_cache w1
    ∧ evalsha_keys (log w1)
      = (evalsha_keys (log w)
         ++ [http_key (FastAPILimiter.prefix cfg) (g request) i j])%list
    ∧ script_loads (log w1)
      = (script_loads (log w)
         + match _refund_script_sha w with None => 1 | Some _ => 0 end)%nat.
Proof.
  destruct w as [d cache t fs lg sha rsha]. unfold refund_ready. simpl.
  intros Hg [-> Hsha].
  unfold refund_one, refund_key. rewrite Hg. simpl.
  unfold bind at 1. unfold lift at 1.
  destruct (_refund_script t d (http_key (FastAPILimiter.prefix cfg) (g request) i j))
    as [r d'] eqn:Hrun.
  destruct Hsha as [->|[-> Hc]].
  - unfold try_except, bind, get_refund_script_sha, set_refund_script_sha, evalsha,
      bind, record, round_trip, cached, run_script, script_load, cache_script, ret.
    cbn -[_refund_script]. rewrite bool_decide_eq_true_2 by apply list_elem_of_here.
    cbn -[_refund_script].
    rewrite Hrun. eexists. split; [reflexivity|]. cbn.
    repeat split; try done;
      try (unfold _refund_script in Hrun; simpl in Hrun; congruence).
    + apply list_elem_of_here.
    + rewrite <- !app_assoc. by rewrite !evalsha_keys_app.
    + rewrite <- !app_assoc. rewrite !script_loads_app. simpl. lia.
  - unfold try_except, bind, get_refund_script_sha, set_refund_script_sha, evalsha,
      bind, record, round_trip, cached, run_script, script_load, cache_script, ret.
    cbn -[_refund_script]. rewrite bool_decide_eq_true_2 by done.
    cbn -[_refund_script].
    rewrite Hrun. eexists. split; [reflexivity|]. cbn.
    repeat split; try done;
      try (unfold _refund_script in Hrun; simpl in Hrun; congruence).
    + by rewrite evalsha_keys_app.
    + rewrite script_loads_app. simpl. lia.
Qed.

Lemma refund_dependencies_ready (cfg : FastAPILimiter.t) (request : Request)
    (i : nat) (g : Request → string) (deps : list Dependency) :
  FastAPILimiter.identifier cfg = Some g →
  ∀ (j : nat) (w : World),
    refund_ready w →
    ∃ w1,
      refund_dependencies cfg request i deps j w = (Return tt, w1)
      ∧ db w1 = foldl (λ d j', snd (_refund_script (clock w) d
                                      (http_key (FastAPILimiter.prefix cfg)
                                         (g request) i j')))
                  (db w) (limiter_positions deps j)
      ∧ clock w1 = clock w
      ∧ lua_sha w1 = lua_sha w
      ∧ refund_ready w1
      ∧ evalsha_keys (log w1)
        = (evalsha_keys (log w)
           ++ map (http_key (FastAPILimiter.prefix cfg) (g request) i)
                (limiter_positions deps j))%list
      ∧ (script_loads (log w1) <= script_loads (log w) + 1)%nat
      ∧ (_refund_script_sha w ≠ None →
         script_loads (log w1) = script_loads (log w)).
Proof.
  intros Hg. induction deps as [|dep deps IH]; intros j w Hready.
  - exists w. simpl. rewrite app_nil_r. do 6 (split; [done|]). split; [lia | done].
  - simpl. unfold bind at 1.
    destruct (bool_decide (dependency_class dep = "RateLimiter")).
    + destruct (refund_one_ready cfg request i j g w Hg Hready)
        as (w1 & Hone & Hdb & Hclock & Hlua & Hf & Hsha & Hc & Hkeys & Hloads).
      rewrite Hone.
      assert (Hready1 : refund_ready w1) by (split; [done | right; done]).
      destruct (IH (S j) w1 Hready1)
        as (w2 & Hrest & Hdb2 & Hclock2 & Hlua2 & Hready2 & Hkeys2 & _ & Hloads2).
      exists w2. split; [done|]. simpl.
      rewrite Hdb2, Hdb, Hclock, Hclock2, Hlua2, Hlua, Hkeys2, Hkeys, <- app_assoc.
      do 5 (split; [done|]). split.
      * rewrite Hloads2 by congruence. rewrite Hloads.
        destruct (_refund_script_sha w); lia.
      * intros Hsome. rewrite Hloads2 by congruence. rewrite Hloads.
        destruct (_refund_script_sha w); [lia | done].
    + unfold ret at 1. apply IH. done.
Qed.

Lemma refund_routes_first_match (cfg : FastAPILimiter.t) (request : Request)
    (routes : list Route) :
  ∀ (n base : nat) (route : Route),
    routes !! n = Some route →
    route_matches request route = true →
    (∀ n' route', (n' < n)%nat → routes !! n' = Some route' →
       route_matches request route' = false) →
    refund_routes cfg request routes base
    = refund_dependencies cfg request (base + n) (dependencies route) 0.
Proof.
  induction routes as [|r routes IH]; intros n base route Hn Hm Hfirst; [done|].
  destruct n as [|n]; simpl in *.
  - injection Hn as ->. by rewrite Hm, Nat.add_0_r.
  - rewrite (Hfirst 0%nat r) by (done || lia).
    rewrite (IH n (S base) route Hn Hm); [f_equal; lia|].
    intros n' route' Hlt Hn'. apply (Hfirst (S n') route'); [lia | done].
Qed.

(** X22. On a healthy store one refund call runs the refund script once for
    every dependency of class [RateLimiter] of the first route that
    matches the request, in order, under the process-wide identifier;
    dependencies of any other class are skipped, and the refund script is
    loaded at most once. *)
Theorem refund_reaches_every_limiter (cfg : FastAPILimiter.t) (request : Request)
    (i : nat) (route : Route) (g : Request → string) (w : World) :
  FastAPILimiter.redis cfg ≠ None →
  FastAPILimiter.identifier cfg = Some g →
  app_routes request !! i = Some route →
  route_matches request route = true →
  (∀ i' route', (i' < i)%nat → app_routes request !! i' = Some route' →
     route_matches request route' = false) →
  refund_ready w →
  ∃ w1,
    refund_rate_limit_for_request cfg request w = (Return tt, w1)
    ∧ db w1 = foldl (λ d j, snd (_refund_script (clock w) d
                                   (http_key (FastAPILimiter.prefix cfg)
                                      (g request) i j)))
                (db w) (limiter_positions (dependencies route) 0)
    ∧ evalsha_keys (log w1)
      = (evalsha_keys (log w)
         ++ map (http_key (FastAPILimiter.prefix cfg) (g request) i)
              (limiter_positions (dependencies route) 0))%list
    ∧ (script_loads (log w1) <= script_loads (log w) + 1)%nat.
Proof.
  intros Hredis Hg Hi Hm Hfirst Hready.
  unfold refund_rate_limit_for_request.
  destruct (FastAPILimiter.redis cfg); [|done].
  rewrite (refund_routes_first_match cfg request _ i 0 route Hi Hm Hfirst). simpl.
  destruct (refund_dependencies_ready cfg request i g (dependencies route) Hg 0 w Hready)
    as (w1 & Hrun & Hdb & _ & _ & _ & Hkeys & Hloads & _).
  exists w1. done.
Qed.

Lemma refund_reaches_every_limiter_witness :
  ∃ w1,
    refund_rate_limit_for_request (@main.cfg main.tagging)
      (main.request "GET" "/multiple" [] []) main.started = (Return tt, w1)
    ∧ db w1 = foldl (λ d j, snd (_refund_script (clock main.started) d
                                   (http_key (FastAPILimiter.prefix (@main.cfg main.tagging))
                                      (default_identifier
                                         (main.request "GET" "/multiple" [] [])) 2 j)))
                (db main.started)
                (limiter_positions
                   [main.Depends main.multiple_1; main.Depends main.multiple_2] 0)
    ∧ evalsha_keys (log w1)
      = (evalsha_keys (log main.started)
         ++ map (http_key (FastAPILimiter.prefix (@main.cfg main.tagging))
                   (default_identifier (main.request "GET" "/multiple" [] [])) 2)
              (limiter_positions
                 [main.Depends main.multiple_1; main.Depends main.multiple_2] 0))%list
    ∧ (script_loads (log w1) <= script_loads (log main.started) + 1)%nat.
Proof.
  apply (refund_reaches_every_limiter (@main.cfg main.tagging)
           (main.request "GET" "/multiple" [] []) 2
           {| path := "/multiple"; methods := ["GET"];
              dependencies := [main.Depends main.multiple_1;
                               main.Depends main.multiple_2] |}
           default_identifier main.started).
  - discriminate.
  - reflexivity.
  - reflexivity.
  - by vm_compute.
  - intros i' route' Hlt Hi'.
    do 2 (destruct i' as [|i']; [injection Hi' as <-; by vm_compute |]). lia.
  - split; [reflexivity|]. by left.
Defined.

(** X23. When the first attempt of a refund fails, because the store has
    dropped the refund script or cannot be reached, the refund loads the
    script and tries again; the count is decremented once, by the second
    attempt only. *)
Theorem refund_retries_first_failure (cfg : FastAPILimiter.t) (request : Request)
    (i j : nat) (g : Request → string) (w : World) :
  FastAPILimiter.identifier cfg = Some g →
  _refund_script_sha w = Some RefundScript →
  (faults w = [] ∧ RefundScript ∉ script_cache w)
  ∨ (faults w = [Unreachable] ∧ RefundScript ∈ script_cache w) →
  ∃ w1,
    refund_one cfg request i j w = (Return tt, w1)
    ∧ db w1 = snd (_refund_script (clock w) (db w)
                     (http_key (FastAPILimiter.prefix cfg) (g request) i j))
    ∧ log w1 = (log w ++
                [EvalSha (Some RefundScript)
                   (http_key (FastAPILimiter.prefix cfg) (g request) i j) [];
                 ScriptLoad RefundScript;
                 EvalSha (Some RefundScript)
                   (http_key (FastAPILimiter.prefix cfg) (g request) i j) []])%list.
Proof.
  destruct w as [d cache t fs lg sha rsha]. simpl.
  intros Hg -> Hcase.
  unfold refund_one, refund_key. rewrite Hg. simpl.
  unfold bind at 1. unfold lift at 1.
  destruct (_refund_script t d (http_key (FastAPILimiter.prefix cfg) (g request) i j))
    as [r d'] eqn:Hrun.
  assert (Hd' : d' = (if bool_decide
                           (default 0 (Redis.GET t d
                              (http_key (FastAPILimiter.prefix cfg) (g request) i j)) > 0)
                      then Redis.DECR t d
                             (http_key (FastAPILimiter.prefix cfg) (g request) i j)
                      else d)).
  { unfold _refund_script in Hrun. simpl in Hrun. congruence. }
  unfold try_except, bind, get_refund_script_sha, set_refund_script_sha, evalsha,
    bind, record, round_trip, cached, run_script, script_load, cache_script, ret, raise.
  destruct Hcase as [[-> Hc]|[-> Hc]]; cbn -[_refund_script].
  - rewrite bool_decide_eq_false_2 by done. cbn -[_refund_script].
    rewrite bool_decide_eq_true_2 by apply list_elem_of_here. cbn -[_refund_script].
    rewrite Hrun. eexists. split; [reflexivity|]. cbn.
    split; [done|]. by rewrite <- !app_assoc.
  - rewrite bool_decide_eq_true_2 by (by apply list_elem_of_further).
    cbn -[_refund_script].
    rewrite Hrun. eexists. split; [reflexivity|]. cbn.
    split; [done|]. by rewrite <- !app_assoc.
Qed.

Lemma refund_retries_first_failure_witness :
  ∃ w1,
    refund_one (@main.cfg main.tagging) (main.request "POST" "/" [] []) 1 0
      main.refund_evicted = (Return tt, w1)
    ∧ db w1 = snd (_refund_script (clock main.refund_evicted) (db main.refund_evicted)
                     (http_key (FastAPILimiter.prefix (@main.cfg main.tagging))
                        (default_identifier (main.request "POST" "/" [] [])) 1 0))
    ∧ log w1 = (log main.refund_evicted ++
                [EvalSha (Some RefundScript)
                   (http_key (FastAPILimiter.prefix (@main.cfg main.tagging))
                      (default_identifier (main.request "POST" "/" [] [])) 1 0) [];
                 ScriptLoad RefundScript;
                 EvalSha (Some RefundScript)
                   (http_key (FastAPILimiter.prefix (@main.cfg main.tagging))
                      (default_identifier (main.request "POST" "/" [] [])) 1 0) []])%list.
Proof.
  apply (refund_retries_first_failure (@main.cfg main.tagging)
           (main.request "POST" "/" [] []) 1 0 default_identifier main.refund_evicted).
  - reflexivity.
  - reflexivity.
  - left. split; [reflexivity|]. simpl.
    intros Hin. apply list_elem_of_In in Hin. simpl in Hin.
    destruct Hin as [Hin|[]]. discriminate.
Defined.

(** X24. If the second attempt fails as well, the refund raises and the count
    is left as it was. *)
Theorem refund_raises_after_two_failures (cfg : FastAPILimiter.t) (request : Request)
    (i j : nat) (g : Request → string) (w : World) (fs : list fault) :
  FastAPILimiter.identifier cfg = Some g →
  _refund_script_sha w = Some RefundScript →
  faults w = Unreachable :: Reachable :: Unreachable :: fs →
  ∃ w1,
    refund_one cfg request i j w = (Raise RedisError, w1)
    ∧ db w1 = db w
    ∧ evalsha_keys (log w1)
      = (evalsha_keys (log w)
         ++ [http_key (FastAPILimiter.prefix cfg) (g request) i j;
             http_key (FastAPILimiter.prefix cfg) (g request) i j])%list.
Proof.
  destruct w as [d cache t fs0 lg sha rsha]. simpl.
  intros Hg -> ->.
  unfold refund_one, refund_key. rewrite Hg. simpl.
  unfold bind at 1. unfold lift at 1.
  unfold try_except, bind, get_refund_script_sha, set_refund_script_sha, evalsha,
    bind, record, round_trip, cached, run_script, script_load, cache_script, ret, raise.
  cbn. eexists. split; [reflexivity|]. cbn. split; [done|].
  rewrite <- !app_assoc. by rewrite !evalsha_keys_app.
Qed.

Lemma refund_raises_after_two_failures_witness :
  ∃ w1,
    refund_one (@main.cfg main.tagging) (main.request "POST" "/" [] []) 1 0
      (with_faults [Unreachable; Reachable; Unreachable] [LimiterScript; RefundScript]
         main.refund_evicted)
      = (Raise RedisError, w1)
    ∧ db w1 = db (with_faults [Unreachable; Reachable; Unreachable]
                    [LimiterScript; RefundScript] main.refund_evicted)
    ∧ evalsha_keys (log w1)
      = (evalsha_keys
           (log (with_faults [Unreachable; Reachable; Unreachable]
                   [LimiterScript; RefundScript] main.refund_evicted))
         ++ [http_key (FastAPILimiter.prefix (@main.cfg main.tagging))
               (default_identifier (main.request "POST" "/" [] [])) 1 0;
             http_key (FastAPILimiter.prefix (@main.cfg main.tagging))
               (default_identifier (main.request "POST" "/" [] [])) 1 0])%list.
Proof.
  apply (refund_raises_after_two_failures (@main.cfg main.tagging)
           (main.request "POST" "/" [] []) 1 0 default_identifier
           (with_faults [Unreachable; Reachable; Unreachable]
              [LimiterScript; RefundScript] main.refund_evicted) []).
  - reflexivity.
  - reflexivity.
  - reflexivity.
Defined.

Lemma registered_index_get :
  registered_at (main.request "GET" "/" [] []) (RateLimiter.self_id main.index_get) 0 0.
Proof.
  exists {| path := "/"; methods := ["GET"];
            dependencies := [main.Depends main.index_get] |}.
  split; [reflexivity|]. split; [by vm_compute|]. split; [|reflexivity].
  intros i' route' Hi' Hm.
  do 5 (destruct i' as [|i']; [injection Hi' as <-; by vm_compute in Hm |]).
  discriminate.
Qed.

Lemma refund_key_without_override_witness :
  refund_key (@main.cfg main.tagging) (main.request "GET" "/" [] []) 0 0
  = RateLimiter.key (@main.cfg main.tagging) main.index_get
      (main.request "GET" "/" [] []).
Proof.
  apply (refund_key_without_override (@main.cfg main.tagging) main.index_get
           (main.request "GET" "/" [] []) 0 0).
  - exact registered_index_get.
  - reflexivity.
Defined.

Lemma refund_unresolved_noop_witness :
  refund_rate_limit_for_request (@main.cfg main.tagging)
    (main.request "GET" "/items/5" [] []) (@main.after_post main.tagging)
  = (Return tt, @main.after_post main.tagging).
Proof.
  apply (refund_unresolved_noop (@main.cfg main.tagging)
           (main.request "GET" "/items/5" [] []) (@main.after_post main.tagging)).
  intros n route Hn Hm.
  do 5 (destruct n as [|n]; [injection Hn as <-; by vm_compute in Hm |]).
  discriminate.
Defined.

(** ** One charge, one refund *)







Lemma check_served_frame (self : RateLimiter.t) (key : string) (w : World) :
  served w →
  faults w = [] →
  ∃ w1,
    RateLimiter._check self key w
      = (as_result (fst (lua_script (clock w) (db w) key (RateLimiter.times self)
                           (RateLimiter.milliseconds self))), w1)
    ∧ db w1 = snd (lua_script (clock w) (db w) key (RateLimiter.times self)
                     (RateLimiter.milliseconds self))
    ∧ clock w1 = clock w
    ∧ faults w1 = []
    ∧ script_cache w1 = script_cache w
    ∧ _refund_script_sha w1 = _refund_script_sha w
    ∧ lua_sha w1 = lua_sha w.
Proof.
  destruct w as [d cache t fs lg sha rsha]. unfold served. simpl.
  intros (_ & -> & Hc) ->.
  unfold RateLimiter._check, bind, get_lua_sha, evalsha, bind, record, round_trip,
    cached, run_script.
  cbn. rewrite bool_decide_eq_true_2 by done. cbn.
  destruct (lua_script t d key (RateLimiter.times self)
              (RateLimiter.milliseconds self)) as [r d'].
  eexists. cbn. repeat split.
Qed.




(** A refund that comes after the window of the charge has ended gives
    nothing back, and has nothing to give back: the count already reads
    0. *)
Example refund_after_the_window `{Hashlib} :
  count_of 6000
    (db (snd ((RateLimiter.__call__ main.cfg main.index_post
                 (main.request "POST" "/" [] []) ;;;
               elapse 3000 ;;; elapse 3000 ;;;
               refund_rate_limit_for_request main.cfg (main.request "POST" "/" [] []))
                main.started)))
    "fastapi-limiter:127.0.0.1:/:1:0" = 0
  ∧ db (snd ((RateLimiter.__call__ main.cfg main.index_post
                (main.request "POST" "/" [] []) ;;;
              elapse 3000 ;;; elapse 3000 ;;;
              refund_rate_limit_for_request main.cfg (main.request "POST" "/" [] []))
               main.started))
    = {[ "fastapi-limiter:127.0.0.1:/:1:0" := Entry 1 (Some 5000) ]}.
Proof. split; vm_compute; reflexivity. Qed.

(** * The websocket loop of the example application *)

Section websocket_loop.
Context `{Hashlib}.

Lemma ws_key_inj_context (prefix : option string) (rate_key c1 c2 : string) :
  ws_key prefix rate_key c1 = ws_key prefix rate_key c2 → c1 = c2.
Proof. unfold ws_key. intros Heq. by do 4 apply (inj (String.app _)) in Heq. Qed.

(** The state of the loop after the context keys [seen], inside the
    five seconds that follow [start]: the store answers, and the caller's
    counters are exactly those of [seen], each at 1 with a deadline that
    lies after those five seconds. *)
Lemma websocket_turn_step (websocket : WebSocket) (data : string)
    (seen : list string) (start : Z) (w : World) :
  served w →
  faults w = [] →
  start <= clock w < start + 5000 →
  (∀ c, if bool_decide (c ∈ seen)
        then ∃ deadline,
               db w !! ws_key (Some "fastapi-limiter") (default_identifier websocket) c
                 = Some (Entry 1 (Some deadline))
               ∧ start + 5000 <= deadline
        else db w !! ws_key (Some "fastapi-limiter") (default_identifier websocket) c
               = None) →
  ∃ w1,
    main.websocket_turn websocket data w
      = (Return (if bool_decide (data ∈ seen) then "Hello again" else "Hello, world"),
         w1)
    ∧ served w1
    ∧ faults w1 = []
    ∧ clock w1 = clock w
    ∧ (∀ c, if bool_decide (c ∈ (seen ++ [data])%list)
            then ∃ deadline,
                   db w1 !! ws_key (Some "fastapi-limiter")
                              (default_identifier websocket) c
                     = Some (Entry 1 (Some deadline))
                   ∧ start + 5000 <= deadline
            else db w1 !! ws_key (Some "fastapi-limiter")
                            (default_identifier websocket) c
                   = None).
Proof.
  intros Hs Hfaults Hclock Hdb.
  set (key := ws_key (Some "fastapi-limiter") (default_identifier websocket)) in *.
  destruct (check_served_frame main.ratelimit (key data) w Hs Hfaults)
    as (w1 & Hcheck & Hdb1 & Hclock1 & Hfaults1 & Hcache1 & _ & Hlua1).
  assert (Hs1 : served w1).
  { destruct Hs as (_ & Hl & Hc). split; [by left|]. split; [by rewrite Hlua1|].
    by rewrite Hcache1. }
  assert (Hturn : ∀ r,
            fst (lua_script (clock w) (db w) (key data) 1 5000) = IntegerReply r →
            main.websocket_turn websocket data w
            = (if bool_decide (r ≠ 0)
               then (Return "Hello again", w1) else (Return "Hello, world", w1))).
  { intros r Hr.
    unfold main.websocket_turn, try_except, WebSocketRateLimiter.__call__. simpl.
    unfold bind at 1. unfold bind at 1. unfold lift at 1. unfold bind at 1.
    change (WebSocketRateLimiter.key main.cfg main.ratelimit websocket data)
      with (Return (key data)).
    cbv iota beta. rewrite Hcheck.
    change (RateLimiter.times main.ratelimit) with 1.
    change (RateLimiter.milliseconds main.ratelimit) with 5000.
    rewrite Hr. simpl.
    by destruct (bool_decide (r ≠ 0)). }
  change (RateLimiter.times main.ratelimit) with 1 in Hdb1.
  change (RateLimiter.milliseconds main.ratelimit) with 5000 in Hdb1.
  exists w1.
  specialize (Hdb data) as Hdata.
  destruct (bool_decide (data ∈ seen)) eqn:Hseen.
  - destruct Hdata as (deadline & Hdata & Hdeadline).
    assert (Hf : Redis.find (clock w) (db w) (key data)
                 = Some (Entry 1 (Some deadline))).
    { apply find_Some. split; [done|]. simpl. apply bool_decide_eq_true. lia. }
    rewrite (lua_script_deny _ _ _ _ _ _ Hf) in Hdb1 by (simpl; lia).
    rewrite (Hturn (deadline - clock w))
      by (by rewrite (lua_script_deny _ _ _ _ _ _ Hf) by (simpl; lia)).
    simpl in *. rewrite bool_decide_eq_true_2 by lia.
    split; [done|]. split; [done|]. split; [done|]. split; [done|].
    intros c. rewrite Hdb1.
    apply bool_decide_eq_true in Hseen.
    rewrite (bool_decide_ext (c ∈ (seen ++ [data])%list) (c ∈ seen)); [apply Hdb|].
    rewrite elem_of_app, list_elem_of_singleton.
    split; [intros [?|?]; [done | subst; done || congruence] | by left].
  - assert (Hc0 : count_of (clock w) (db w) (key data) <= 0).
    { rewrite count_of_absent; [lia|]. apply find_None. by left. }
    rewrite lua_script_fresh in Hdb1 by (done || lia).
    rewrite (Hturn 0) by (by rewrite lua_script_fresh by (done || lia)).
    simpl in *. rewrite ?bool_decide_eq_false_2 by (intros Hne; by apply Hne).
    split; [done|]. split; [done|]. split; [done|]. split; [done|].
    intros c. rewrite Hdb1.
    destruct (decide (c = data)) as [->|Hne].
    + rewrite lookup_insert_eq.
      rewrite (bool_decide_eq_true_2 (data ∈ (seen ++ [data])%list)).
      * eexists. split; [done|]. lia.
      * rewrite elem_of_app, list_elem_of_singleton. by right.
    + rewrite lookup_insert_ne.
      * rewrite (bool_decide_ext (c ∈ (seen ++ [data])%list) (c ∈ seen)); [apply Hdb|].
        rewrite elem_of_app, list_elem_of_singleton.
        split; [intros [?|?]; [done | subst; done || congruence] | by left].
      * intros Heq. apply ws_key_inj_context in Heq. by subst.
Qed.

Lemma websocket_endpoint_from (websocket : WebSocket) (start : Z)
    (received : list (nat * string)) :
  ∀ (seen : list string) (w : World),
    served w →
    faults w = [] →
    start <= clock w →
    clock w + Z.of_nat (list_sum (map fst received)) < start + 5000 →
    (∀ c, if bool_decide (c ∈ seen)
          then ∃ deadline,
                 db w !! ws_key (Some "fastapi-limiter") (default_identifier websocket) c
                   = Some (Entry 1 (Some deadline))
                 ∧ start + 5000 <= deadline
          else db w !! ws_key (Some "fastapi-limiter") (default_identifier websocket) c
                 = None) →
    ∃ sent w1,
      main.websocket_endpoint websocket received w = (Return sent, w1)
      ∧ length sent = length received
      ∧ ∀ n item, received !! n = Some item →
          sent !! n
          = Some (if bool_decide (item.2 ∈ (seen ++ map snd (take n received))%list)
                  then "Hello again" else "Hello, world").
Proof.
  induction received as [|[waited data] rest IH]; intros seen w Hs Hfaults Hstart Hend Hdb.
  - exists [], w. split; [done|]. split; [done|]. intros n d Hn.
    by rewrite lookup_nil in Hn.
  - change (list_sum (map fst ((waited, data) :: rest)))
      with (waited + list_sum (map fst rest))%nat in Hend.
    destruct (elapse waited w) as [r w'] eqn:Hwait.
    assert (Hw' : r = Return tt ∧ served w' ∧ faults w' = []
                  ∧ clock w' = clock w + Z.of_nat waited ∧ db w' = db w).
    { unfold elapse in Hwait. injection Hwait as <- <-.
      split; [done|]. split; [exact Hs|]. split; [exact Hfaults|]. by split. }
    destruct Hw' as (-> & Hs' & Hfaults' & Hclock' & Hdb').
    destruct (websocket_turn_step websocket data seen start w' Hs' Hfaults')
      as (w1 & Hturn & Hs1 & Hfaults1 & Hclock1 & Hdb1).
    { rewrite Hclock'. lia. }
    { intros c. rewrite Hdb'. apply Hdb. }
    destruct (IH (seen ++ [data])%list w1 Hs1 Hfaults1)
      as (more & w2 & Hrest & Hlen & Hsent).
    { rewrite Hclock1, Hclock'. lia. }
    { rewrite Hclock1, Hclock'. lia. }
    { exact Hdb1. }
    exists ((if bool_decide (data ∈ seen) then "Hello again" else "Hello, world")
              :: more), w2.
    split; [|split].
    + cbn [main.websocket_endpoint]. unfold bind at 1. rewrite Hwait.
      unfold bind at 1. rewrite Hturn.
      unfold bind at 1. by rewrite Hrest.
    + simpl. by rewrite Hlen.
    + intros [|n] item Hn; simpl in Hn.
      * injection Hn as <-. simpl. by rewrite app_nil_r.
      * simpl. rewrite (Hsent n item Hn). by rewrite <- app_assoc.
Qed.

(** X27. The example websocket handler allows one message per context key
    and window.  On a store that answers, for a caller without counters
    and for texts that all arrive within five seconds, every text
    received gets exactly one text back: "Hello, world" when the text is
    new, "Hello again" when the same text came before.  A denial never
    ends the loop. *)
Theorem websocket_endpoint_replies (websocket : WebSocket)
    (received : list (nat * string)) (w : World) :
  served w →
  faults w = [] →
  (∀ c, db w !! ws_key (Some "fastapi-limiter") (default_identifier websocket) c
        = None) →
  Z.of_nat (list_sum (map fst received)) < 5000 →
  ∃ sent w1,
    main.websocket_endpoint websocket received w = (Return sent, w1)
    ∧ length sent = length received
    ∧ ∀ n item, received !! n = Some item →
        sent !! n = Some (if bool_decide (item.2 ∈ map snd (take n received))
                          then "Hello again" else "Hello, world").
Proof.
  intros Hs Hfaults Hdb Hwithin.
  destruct (websocket_endpoint_from websocket (clock w) received [] w Hs Hfaults)
    as (sent & w1 & Hrun & Hlen & Hsent).
  - lia.
  - lia.
  - intros c. rewrite bool_decide_eq_false_2 by apply not_elem_of_nil. apply Hdb.
  - by exists sent, w1.
Qed.

End websocket_loop.

Lemma websocket_endpoint_replies_witness :
  ∃ sent w1,
    @main.websocket_endpoint main.tagging (main.request "GET" "/ws" [] [])
      [(0%nat, "a"); (700%nat, "b"); (1200%nat, "a")] main.started = (Return sent, w1)
    ∧ length sent = length [(0%nat, "a"); (700%nat, "b"); (1200%nat, "a")]
    ∧ ∀ n item, [(0%nat, "a"); (700%nat, "b"); (1200%nat, "a")] !! n = Some item →
        sent !! n
        = Some (if bool_decide
                     (item.2 ∈ map snd (take n [(0%nat, "a"); (700%nat, "b");
                                                (1200%nat, "a")]))
                then "Hello again" else "Hello, world").
Proof.
  apply (@websocket_endpoint_replies main.tagging (main.request "GET" "/ws" [] [])
           [(0%nat, "a"); (700%nat, "b"); (1200%nat, "a")] main.started).
  - split; [by left|]. split; [reflexivity|]. by apply list_elem_of_here.
  - reflexivity.
  - intros c. apply lookup_empty.
  - vm_compute. reflexivity.
Defined.

(** The same text again inside the window is answered "Hello again";
    once the five seconds of its window are over it opens a new window
    and is answered "Hello, world". *)
Example websocket_endpoint_run :
  fst (@main.websocket_endpoint main.tagging (main.request "GET" "/ws" [] [])
         [(0%nat, "a"); (700%nat, "b"); (1200%nat, "a"); (5000%nat, "a")]
         main.started)
  = Return ["Hello, world"; "Hello, world"; "Hello again"; "Hello, world"].
Proof. vm_compute. reflexivity. Qed.

(** * [FastAPILimiter.init] *)

(** X28. On a store that answers, [init] loads the counter script once and
    leaves the process ready to count without a reload; it keeps the
    hashes of the passwords, and touches no counter.  On a store that
    cannot be reached it raises, and no script handle is recorded. *)
Theorem init_loads_the_script `{Hashlib} (redis : option unit) (prefix : string)
    (identifier : option (Request → string))
    (http_callback ws_callback : option (Request → Z → M unit))
    (passwords params bearers api_keys : option (list string)) (w : World) :
  (faults w = [] →
     ∃ cfg w1,
       FastAPILimiter.init redis prefix identifier http_callback ws_callback
         passwords params bearers api_keys w = (Return cfg, w1)
       ∧ served w1
       ∧ db w1 = db w
       ∧ script_loads (log w1) = S (script_loads (log w))
       ∧ evalsha_keys (log w1) = evalsha_keys (log w)
       ∧ FastAPILimiter.authorized_passwords cfg
         = Some (map hash_password (default [] passwords)))
  ∧ (∀ fs, faults w = Unreachable :: fs →
       ∃ w1,
         FastAPILimiter.init redis prefix identifier http_callback ws_callback
           passwords params bearers api_keys w = (Raise RedisError, w1)
         ∧ lua_sha w1 = lua_sha w
         ∧ script_cache w1 = script_cache w
         ∧ db w1 = db w).
Proof.
  destruct w as [d cache t fs0 lg sha rsha]. simpl. split.
  - intros ->.
    unfold FastAPILimiter.init, bind, script_load, bind, record, round_trip,
      cache_script, set_lua_sha, ret. cbn.
    eexists _, _. split; [reflexivity|]. cbn.
    split; [|split; [done|split; [|split; [|done]]]].
    + split; [by left|]. split; [done|]. apply list_elem_of_here.
    + rewrite script_loads_app. simpl. lia.
    + rewrite evalsha_keys_app. simpl. by rewrite app_nil_r.
  - intros fs ->.
    unfold FastAPILimiter.init, bind, script_load, bind, record, round_trip,
      cache_script, set_lua_sha, ret. cbn.
    eexists. split; [reflexivity|]. done.
Qed.

Lemma init_loads_the_script_witness :
  ∃ cfg w1,
    @FastAPILimiter.init main.tagging (Some tt) "fastapi-limiter"
      (Some default_identifier) (Some http_default_callback)
      (Some ws_default_callback)
      (Some ["secrets_bypass_password"; "another_super_secret_bypass_password"])
      (Some ["password"; "special_param"]) (Some ["bearer"])
      (Some ["Api-Key"; "X-API-Key"]) main.fresh = (Return cfg, w1)
    ∧ served w1
    ∧ db w1 = db main.fresh
    ∧ script_loads (log w1) = S (script_loads (log main.fresh))
    ∧ evalsha_keys (log w1) = evalsha_keys (log main.fresh)
    ∧ FastAPILimiter.authorized_passwords cfg
      = Some (map (@hash_password main.tagging)
                (default []
                   (Some ["secrets_bypass_password";
                          "another_super_secret_bypass_password"]))).
Proof.
  destruct (@init_loads_the_script main.tagging (Some tt) "fastapi-limiter"
              (Some default_identifier) (Some http_default_callback)
              (Some ws_default_callback)
              (Some ["secrets_bypass_password"; "another_super_secret_bypass_password"])
              (Some ["password"; "special_param"]) (Some ["bearer"])
              (Some ["Api-Key"; "X-API-Key"]) main.fresh) as [Hok _].
  apply Hok. reflexivity.
Defined.
